(** * karl: the log event pipeline of lib/karl.js

    A shallow embedding of the logging module: the option merge [extend],
    the formatter set, the colour helper, the call-site resolver
    [getStackInfo], the per-level methods [_log] with their deferred
    continuation, the console interceptor [redirectConsole], the
    reconfiguration entry point [setOptions] and the handler of
    [uncaughtException].

    JavaScript objects that the module uses as maps (option objects, the
    [console] bindings) are finite maps from property names; the log event
    is a record; module-level variables and the process-wide objects the
    module mutates are the fields of one [World]; exceptions and state are
    threaded through a small state-and-exception monad.

    What the runtime provides is kept apart from what the module does:
    [os.hostname], [path], [Date], [util.inspect] and the number parser
    are fields of a [Host]; [util.format] and [JSON.stringify] are modelled
    on the values that occur (undefined, null, booleans, integral numbers,
    strings, plain objects); what V8 reports for a stack capture is an
    input of each log call.  Host functions and an [enrich] callback are
    total and pure here; the exceptions that are modelled are the ones the
    module's own code can raise or let through: a throwing stack capture,
    a call on a missing value, a call of something that is no function. *)

From Stdlib Require Import ZArith String Ascii List Bool Lia.
From Stdlib Require Import DecimalString.
From stdpp Require Import gmap strings list fin_maps.

Set Warnings "-register-all".

Local Open Scope Z_scope.
Local Open Scope string_scope.

(** ** JavaScript values *)

Module JS.

(** The values that reach the logger as arguments or event fields:
    [undefined], [null], booleans, integral numbers, strings and plain
    objects (own enumerable properties in insertion order). *)
Inductive Value : Type :=
| VUndef
| VNull
| VBool (b : bool)
| VNum (n : Z)
| VStr (s : string)
| VObj (fields : list (string * Value)).

(** A getter result or field that is [null], [undefined] or a value. *)
Inductive Nullable (A : Type) : Type :=
| Null
| Undefined
| Val (a : A).
Arguments Null {A}.
Arguments Undefined {A}.
Arguments Val {A} a.

Inductive Error : Type :=
| TypeError (msg : string)
| HostError (msg : string).

(** ToBoolean. *)
Definition truthy (v : Value) : bool :=
  match v with
  | VUndef | VNull => false
  | VBool b => b
  | VNum n => negb (n =? 0)%Z
  | VStr s => negb (String.eqb s EmptyString)
  | VObj _ => true
  end.

Definition truthy_str (v : Nullable string) : bool :=
  match v with
  | Val s => negb (String.eqb s EmptyString)
  | _ => false
  end.

Definition of_str (v : Nullable string) : Value :=
  match v with Null => VNull | Undefined => VUndef | Val s => VStr s end.

(** A host function of a string applied to a getter result. *)
Definition on_str (f : string -> string) (v : Nullable string) : Nullable string :=
  match v with Val s => Val (f s) | _ => v end.

Definition of_num (v : Nullable Z) : Value :=
  match v with Null => VNull | Undefined => VUndef | Val n => VNum n end.

(** Number-to-string of an integral number. *)
Definition number_text (n : Z) : string :=
  NilZero.string_of_int (Z.to_int n).

(** ToString, i.e. [String(v)] and [" " + v]. *)
Definition to_string (v : Value) : string :=
  match v with
  | VUndef => "undefined"
  | VNull => "null"
  | VBool true => "true"
  | VBool false => "false"
  | VNum n => number_text n
  | VStr s => s
  | VObj _ => "[object Object]"
  end.

Definition ESC : ascii := ascii_of_nat 27.

Definition hex_digit (n : nat) : ascii :=
  ascii_of_nat (if (n <? 10)%nat then 48 + n else 87 + n)%nat.

Definition bslash : ascii := ascii_of_nat 92.

(** QuoteJSONString on one character: the quote, the backslash and the
    control characters below 0x20 are escaped. *)
Definition json_escape (c : ascii) : string :=
  let n := nat_of_ascii c in
  if (n =? 34)%nat then String bslash (String c EmptyString)
  else if (n =? 92)%nat then String bslash (String bslash EmptyString)
  else if (n =? 8)%nat then String bslash "b"
  else if (n =? 12)%nat then String bslash "f"
  else if (n =? 10)%nat then String bslash "n"
  else if (n =? 13)%nat then String bslash "r"
  else if (n =? 9)%nat then String bslash "t"
  else if (n <? 32)%nat then
    String bslash "u00"
    +:+ String (hex_digit (n / 16)) (String (hex_digit (n mod 16)) EmptyString)
  else String c EmptyString.

Fixpoint json_escape_all (s : string) : string :=
  match s with
  | EmptyString => EmptyString
  | String c rest => json_escape c +:+ json_escape_all rest
  end.

Definition dquote : string := String (ascii_of_nat 34) EmptyString.

Definition json_quote (s : string) : string :=
  dquote +:+ json_escape_all s +:+ dquote.

Fixpoint join (sep : string) (parts : list string) : string :=
  match parts with
  | [] => EmptyString
  | [p] => p
  | p :: rest => p +:+ sep +:+ join sep rest
  end.

(** [JSON.stringify]: [None] is the result [undefined]; a property whose
    value serializes to [undefined] is left out of its object. *)
Fixpoint stringify (v : Value) : option string :=
  match v with
  | VUndef => None
  | VNull => Some "null"
  | VBool true => Some "true"
  | VBool false => Some "false"
  | VNum n => Some (number_text n)
  | VStr s => Some (json_quote s)
  | VObj fields =>
      let members :=
        (fix members (fs : list (string * Value)) : list string :=
           match fs with
           | [] => []
           | (k, x) :: rest =>
               match stringify x with
               | Some t => (json_quote k +:+ ":" +:+ t) :: members rest
               | None => members rest
               end
           end) fields in
      Some ("{" +:+ join "," members +:+ "}")
  end.

End JS.
Export JS.


(** ** The host: Node's library functions and process constants

    What the module takes from its runtime and does not define itself. *)

Record Host : Type := {
  (** [os.hostname()] *)
  os_hostname : string;
  (** [path.basename(process.mainModule.filename, ".js")], taken at load *)
  applicationName : string;
  (** [process.pid], taken at load *)
  pid : Z;
  (** [path.basename(fn)] *)
  path_basename : string -> string;
  (** [path.relative(process.cwd(), path.dirname(fn))] *)
  path_relative_dir : string -> string;
  (** [date.toISOString()], a date being its epoch milliseconds *)
  toISOString : Z -> string;
  (** [util.inspect(v)] *)
  util_inspect : Value -> string;
  (** the text of [Number(s)] for a string [s] *)
  number_of_string : string -> string
}.

(** [util.inspect.colors]: the start and stop codes of Node's palette. *)
Definition util_inspect_colors : gmap string (Z * Z) :=
  list_to_map
    [("bold", (1, 22)); ("italic", (3, 23)); ("underline", (4, 24));
     ("inverse", (7, 27)); ("white", (37, 39)); ("grey", (90, 39));
     ("black", (30, 39)); ("blue", (34, 39)); ("cyan", (36, 39));
     ("green", (32, 39)); ("magenta", (35, 39)); ("red", (31, 39));
     ("yellow", (33, 39))].

Section UtilFormat.

Variable H : Host.

(** The text [Number(v)] prints as. *)
Definition to_number_text (v : Value) : string :=
  match v with
  | VUndef => "NaN"
  | VNull => "0"
  | VBool true => "1"
  | VBool false => "0"
  | VNum n => number_text n
  | VStr s => number_of_string H s
  | VObj _ => "NaN"
  end.

(** What JavaScript concatenates for [JSON.stringify(v)]. *)
Definition json_text (v : Value) : string :=
  match stringify v with
  | Some t => t
  | None => "undefined"
  end.

(** The replacement pass of [util.format] over the template: [%s], [%d]
    and [%j] each consume one argument while arguments remain, [%%] gives a
    percent sign, anything else is copied.  Returns the text and the
    arguments that no placeholder consumed. *)
Fixpoint format_template (f : string) (args : list Value) : string * list Value :=
  match f with
  | EmptyString => (EmptyString, args)
  | String c f' =>
      let copy :=
        let '(s, unused) := format_template f' args in (String c s, unused) in
      if Ascii.eqb c "%" then
        match f' with
        | EmptyString => copy
        | String d rest =>
            if Ascii.eqb d "%" then
              let '(s, unused) := format_template rest args in (String "%" s, unused)
            else if Ascii.eqb d "s" || Ascii.eqb d "d" || Ascii.eqb d "j" then
              match args with
              | [] => copy
              | a :: args' =>
                  let text :=
                    if Ascii.eqb d "s" then to_string a
                    else if Ascii.eqb d "d" then to_number_text a
                    else json_text a in
                  let '(s, unused) := format_template rest args' in
                  (text +:+ s, unused)
              end
            else copy
        end
      else copy
  end.

(** The arguments left over are appended, each after a space: objects
    through [util.inspect], everything else by string concatenation. *)
Definition format_rest (x : Value) : string :=
  match x with
  | VObj _ => " " +:+ util_inspect H x
  | _ => " " +:+ to_string x
  end.

Fixpoint concat_all (parts : list string) : string :=
  match parts with
  | [] => EmptyString
  | p :: rest => p +:+ concat_all rest
  end.

(** [util.format(...args)]. *)
Definition util_format (args : list Value) : string :=
  match args with
  | [] => EmptyString
  | VStr f :: rest =>
      match rest with
      | [] => f
      | _ =>
          let '(s, unused) := format_template f rest in
          s +:+ concat_all (map format_rest unused)
      end
  | _ => join " " (map (util_inspect H) args)
  end.

End UtilFormat.

(** ** Data model *)

Inductive Level : Type := TRACE | DEBUG | INFO | WARN | ERROR | FATAL.

Global Instance Level_eq_dec : EqDecision Level.
Proof. solve_decision. Defined.

Definition LOG_LEVELS : list Level := [TRACE; DEBUG; INFO; WARN; ERROR; FATAL].

Definition level_name (l : Level) : string :=
  match l with
  | TRACE => "TRACE" | DEBUG => "DEBUG" | INFO => "INFO"
  | WARN => "WARN" | ERROR => "ERROR" | FATAL => "FATAL"
  end.

Definition lower_ascii (c : ascii) : ascii :=
  let n := nat_of_ascii c in
  if ((65 <=? n) && (n <=? 90))%nat then ascii_of_nat (n + 32) else c.

Fixpoint toLowerCase (s : string) : string :=
  match s with
  | EmptyString => EmptyString
  | String c rest => String (lower_ascii c) (toLowerCase rest)
  end.

(** The message object assembled by the deferred part of a log method;
    [extra] holds what an [enrich] callback added. *)
Record LogEvent : Type := {
  timestamp : string;
  level : string;
  hostName : string;
  process_name : string;
  process_pid : Z;
  message : string;
  fileName : Nullable string;
  filePath : Nullable string;
  lineNumber : Nullable Z;
  functionName : Nullable string;
  extra : list (string * Value)
}.

(** A value found in an options object: plain data or a callback on the
    message. *)
Inductive OptVal : Type :=
| OVal (v : Value)
| OFun (f : LogEvent -> LogEvent).

Definition truthy_opt (o : OptVal) : bool :=
  match o with
  | OVal v => truthy v
  | OFun _ => true
  end.

(** Reading property [k] of an object: [undefined] when it is not there. *)
Definition prop (o : gmap string OptVal) (k : string) : OptVal :=
  default (OVal VUndef) (o !! k).

(** The V8 CallSite object, by the three getters the module calls. *)
Record CallSite : Type := {
  getFileName : Nullable string;
  getLineNumber : Nullable Z;
  getFunctionName : Nullable string
}.

Definition dummyTrace : CallSite :=
  {| getFileName := Null; getLineNumber := Null; getFunctionName := Null |}.

Inductive Formatter : Type := JsonFormatter | TextFormatter.

Global Instance Formatter_eq_dec : EqDecision Formatter.
Proof. solve_decision. Defined.

(** What [Error.prepareStackTrace] holds: nothing, a formatter installed
    by someone else, or the closure [getStackInfo] installs. *)
Inductive PrepareFn : Type :=
| PrepUndefined
| PrepUser (id : nat)
| PrepCapture.

(** The process-wide stack-trace configuration on [Error]. *)
Record ErrorConfig : Type := {
  stackTraceLimit : Value;
  prepareStackTrace : PrepareFn
}.

(** What V8 does when the resolver asks for the stack at one call: either
    primitive may throw, otherwise it has the frames above the boundary
    function, innermost first. *)
Inductive HostCapture : Type :=
| CaptureThrows (e : Error)
| StackThrows (fs : list CallSite) (e : Error)
| Frames (fs : list CallSite).

(** A function bound to a [console] entry point. *)
Inductive FnVal : Type :=
| FUndefined
| FHost (h : string)
| FKarl (l : Level).

Global Instance FnVal_eq_dec : EqDecision FnVal.
Proof. solve_decision. Defined.

(** The closures handed to [setImmediate], by the variables they capture. *)
Inductive Task : Type :=
| LogTask (lvl : Level) (trace : Nullable CallSite) (date : Z)
          (format : Formatter) (parameters : list Value)
| KillTask.

Inductive Effect : Type :=
| Write (text : string)
| Kill (target : Z) (signal : string).

(** Module variables and the process-wide state the module touches. *)
Record World : Type := {
  logOptions : gmap string OptVal;
  currentFormatter : option Formatter;
  defaultConsole : gmap string FnVal;
  console : gmap string FnVal;
  errorConfig : ErrorConfig;
  immediates : list Task;
  effects : list Effect
}.

Definition with_logOptions (o : gmap string OptVal) (w : World) : World :=
  {| logOptions := o; currentFormatter := currentFormatter w;
     defaultConsole := defaultConsole w; console := console w;
     errorConfig := errorConfig w; immediates := immediates w;
     effects := effects w |}.

Definition with_currentFormatter (f : option Formatter) (w : World) : World :=
  {| logOptions := logOptions w; currentFormatter := f;
     defaultConsole := defaultConsole w; console := console w;
     errorConfig := errorConfig w; immediates := immediates w;
     effects := effects w |}.

Definition with_console (c : gmap string FnVal) (w : World) : World :=
  {| logOptions := logOptions w; currentFormatter := currentFormatter w;
     defaultConsole := defaultConsole w; console := c;
     errorConfig := errorConfig w; immediates := immediates w;
     effects := effects w |}.

Definition with_errorConfig (e : ErrorConfig) (w : World) : World :=
  {| logOptions := logOptions w; currentFormatter := currentFormatter w;
     defaultConsole := defaultConsole w; console := console w;
     errorConfig := e; immediates := immediates w;
     effects := effects w |}.

Definition with_immediates (q : list Task) (w : World) : World :=
  {| logOptions := logOptions w; currentFormatter := currentFormatter w;
     defaultConsole := defaultConsole w; console := console w;
     errorConfig := errorConfig w; immediates := q;
     effects := effects w |}.

Definition with_effects (e : list Effect) (w : World) : World :=
  {| logOptions := logOptions w; currentFormatter := currentFormatter w;
     defaultConsole := defaultConsole w; console := console w;
     errorConfig := errorConfig w; immediates := immediates w;
     effects := e |}.

(** What was written to standard output, oldest first. *)
Definition stdout (w : World) : list string :=
  omap (fun e => match e with Write t => Some t | Kill _ _ => None end) (effects w).

(** ** State and exceptions

    A computation over state [S] ends with a result or a thrown error; the
    state it leaves behind is kept in both cases. *)

Definition M (S A : Type) : Type := S -> (A + Error) * S.

Definition ret {S A} (a : A) : M S A := fun s => (inl a, s).

Definition throw {S A} (e : Error) : M S A := fun s => (inr e, s).

Definition bind {S A B} (m : M S A) (k : A -> M S B) : M S B :=
  fun s =>
    match m s with
    | (inl a, s') => k a s'
    | (inr e, s') => (inr e, s')
    end.

Definition gets {S A} (f : S -> A) : M S A := fun s => (inl (f s), s).

Definition modify {S} (f : S -> S) : M S unit := fun s => (inl tt, f s).

Declare Scope karl_scope.
Delimit Scope karl_scope with karl.

Notation "'let*' x ':=' m 'in' k" := (bind m (fun x => k))
  (at level 10, x name, m at level 100, k at level 200, only parsing)
  : karl_scope.
Notation "m ';;' k" := (bind m (fun _ => k))
  (at level 100, k at level 200, right associativity, only parsing)
  : karl_scope.

Local Open Scope karl_scope.

(** Running a computation on [Error]'s configuration inside the world. *)
Definition on_errorConfig {A} (m : M ErrorConfig A) : M World A :=
  fun w =>
    let '(r, cfg) := m (errorConfig w) in (r, with_errorConfig cfg w).

(** ** [extend]: mixing defaults into user options *)

(** The first loop: every own property of the first object is copied. *)
Definition copy_own {V} (firstObject target : gmap string V) : gmap string V :=
  map_fold (fun prop v target => <[prop := v]> target) target firstObject.

(** The second loop, for one source: a property is copied unless the
    target already has it. *)
Definition mix_in {V} (target source : gmap string V) : gmap string V :=
  map_fold
    (fun prop v target =>
       if decide (is_Some (target !! prop)) then target else <[prop := v]> target)
    target source.

Definition extend {V} (firstObject : gmap string V)
    (sources : list (gmap string V)) : gmap string V :=
  foldl mix_in (copy_own firstObject ∅) sources.

Definition defaultLogOptions : gmap string OptVal :=
  list_to_map
    [("includeLocationInformation", OVal (VBool true));
     ("colorize", OVal (VBool false));
     ("redirectConsole", OVal (VBool true));
     ("json", OVal (VBool true))].

(** ** Colours *)

Definition CSI (code : Z) : string :=
  String ESC "[" +:+ number_text code +:+ "m".

(** [colors._colorize]; reading the codes of a colour that is not in the
    palette is a TypeError. *)
Definition _colorize {S} (msg color : string) : M S string :=
  match util_inspect_colors !! color with
  | Some (start, stop) => ret (CSI start +:+ msg +:+ CSI stop)
  | None => throw (TypeError "Cannot read property 0 of undefined")
  end.

(** The functions found on the [colors] helper. *)
Inductive ColorFn : Type :=
| defaultTextColor
| byKey (key : string).

(** [colors[key]]: one function per key of the palette. *)
Definition colors (key : string) : option ColorFn :=
  if decide (is_Some (util_inspect_colors !! key)) then Some (byKey key) else None.

Definition logColors (l : Level) : option ColorFn :=
  match l with
  | TRACE => colors "green"
  | DEBUG => Some defaultTextColor
  | INFO => Some defaultTextColor
  | WARN => colors "yellow"
  | ERROR => colors "red"
  | FATAL => colors "red"
  end.

Definition call_color {S} (f : option ColorFn) (msg : string) : M S string :=
  match f with
  | Some defaultTextColor => ret msg
  | Some (byKey key) => _colorize msg key
  | None => throw (TypeError "logColors[level] is not a function")
  end.

(** ** The call-site resolver *)

Definition frame_limit (v : Value) : nat :=
  match v with
  | VNum n => Z.to_nat n
  | _ => 0%nat
  end.

(** [Error.captureStackTrace(obj, limFn)]: at most [Error.stackTraceLimit]
    frames above the boundary function are recorded. *)
Definition captureStackTrace (h : HostCapture) : M ErrorConfig (list CallSite) :=
  match h with
  | CaptureThrows e => throw e
  | StackThrows fs _ | Frames fs =>
      let* limit := gets stackTraceLimit in
      ret (take (frame_limit limit) fs)
  end.

(** Reading [obj.stack]: V8 formats the trace now, through whatever
    [Error.prepareStackTrace] holds; the closure of [getStackInfo] stores
    [stack[0]] in [stackInfo]. *)
Definition read_stack (h : HostCapture) (stack : list CallSite)
    (stackInfo : Nullable CallSite) : M ErrorConfig (Nullable CallSite) :=
  match h with
  | StackThrows _ e => throw e
  | _ =>
      let* prepare := gets prepareStackTrace in
      match prepare with
      | PrepCapture =>
          ret (match stack with [] => Undefined | frame :: _ => Val frame end)
      | _ => ret stackInfo
      end
  end.

Definition set_stackTraceLimit (v : Value) : M ErrorConfig unit :=
  modify (fun cfg => {| stackTraceLimit := v; prepareStackTrace := prepareStackTrace cfg |}).

Definition set_prepareStackTrace (f : PrepareFn) : M ErrorConfig unit :=
  modify (fun cfg => {| stackTraceLimit := stackTraceLimit cfg; prepareStackTrace := f |}).

(** [getStackInfo(limFn)].  The boundary [limFn] is always the log method
    itself, a function, so the assertion on entry holds and is left out;
    [h] is what the host does with that boundary. *)
Definition getStackInfo (h : HostCapture) : M ErrorConfig (Nullable CallSite) :=
  let stackInfo := Null in
  let* saveLimit := gets stackTraceLimit in
  let* savePrepare := gets prepareStackTrace in
  set_stackTraceLimit (VNum 1) ;;
  let* stack := captureStackTrace h in
  set_prepareStackTrace PrepCapture ;;
  let* stackInfo := read_stack h stack stackInfo in
  set_stackTraceLimit saveLimit ;;
  set_prepareStackTrace savePrepare ;;
  ret stackInfo.

(** ** Formatters, logger core, console interceptor *)

Definition newline : string := String (ascii_of_nat 10) EmptyString.

Definition getFormatter (options : gmap string OptVal) : Formatter :=
  if truthy_opt (prop options "json") then JsonFormatter else TextFormatter.

Definition defaultFormatter : Formatter := getFormatter defaultLogOptions.

(** The message object as a value, own properties in creation order. *)
Definition event_value (m : LogEvent) : Value :=
  VObj ([("timestamp", VStr (timestamp m));
         ("level", VStr (level m));
         ("hostName", VStr (hostName m));
         ("process", VObj [("name", VStr (process_name m));
                           ("pid", VNum (process_pid m))]);
         ("message", VStr (message m));
         ("fileName", of_str (fileName m));
         ("filePath", of_str (filePath m));
         ("lineNumber", of_num (lineNumber m));
         ("functionName", of_str (functionName m))]
        ++ extra m).

Definition jsonFormatter (m : LogEvent) : string :=
  json_text (event_value m).

(** One method of the [karl] object per level, under the lower-case name. *)
Definition karl_method (name : string) : option Level :=
  List.find (fun l => String.eqb (toLowerCase (level_name l)) name) LOG_LEVELS.

Definition cprop (c : gmap string FnVal) (name : string) : FnVal :=
  default FUndefined (c !! name).

(** One host interaction of a log call: the arguments, the clock and what
    a stack capture at this call does. *)
Record Call : Type := {
  args : list Value;
  now : Z;
  capture : HostCapture
}.

Definition setImmediate (t : Task) : M World unit :=
  modify (fun w => with_immediates (immediates w ++ [t]) w).

Definition emit (e : Effect) : M World unit :=
  modify (fun w => with_effects (effects w ++ [e]) w).

Section Karl.

Variable H : Host.

Definition textFormatter (logOptions : gmap string OptVal) (m : LogEvent) : string :=
  if truthy_opt (prop logOptions "includeLocationInformation") then
    util_format H
      [VStr "[%s] %s - %s - %s[%s@%s/%s(%d)]: %s";
       VStr (level m); VStr (timestamp m); VStr (hostName m); VStr (process_name m);
       of_str (functionName m); of_str (filePath m); of_str (fileName m);
       of_num (lineNumber m); VStr (message m)]
  else
    util_format H
      [VStr "[%s] %s - %s - %s: %s";
       VStr (level m); VStr (timestamp m); VStr (hostName m);
       VStr (process_name m); VStr (message m)].

(** Calling a captured formatter; [textFormatter] reads the module's
    [logOptions] when it runs. *)
Definition call_formatter (f : Formatter) (logOptions : gmap string OptVal)
    (m : LogEvent) : string :=
  match f with
  | JsonFormatter => jsonFormatter m
  | TextFormatter => textFormatter logOptions m
  end.

(** The object literal built in the deferred part of [_log]. *)
Definition build_message (lvl : Level) (caller : CallSite) (date : Z)
    (parameters : list Value) : LogEvent :=
  let fn := getFileName caller in
  {| timestamp := toISOString H date;
     level := level_name lvl;
     hostName := os_hostname H;
     process_name := applicationName H;
     process_pid := pid H;
     message := util_format H parameters;
     fileName := if truthy_str fn then on_str (path_basename H) fn else fn;
     filePath := if truthy_str fn then on_str (path_relative_dir H) fn else fn;
     lineNumber := getLineNumber caller;
     functionName :=
       if truthy_str (getFunctionName caller) then getFunctionName caller
       else Val "<anonymous>";
     extra := [] |}.

(** The callback [_log] hands to [setImmediate], and the one the
    [uncaughtException] handler hands to it. *)
Definition run_task (t : Task) : M World unit :=
  match t with
  | LogTask lvl trace date format parameters =>
      let* caller :=
        match trace with
        | Val frame => ret frame
        | Null => throw (TypeError "Cannot read property getFileName of null")
        | Undefined => throw (TypeError "Cannot read property getFileName of undefined")
        end in
      let message := build_message lvl caller date parameters in
      let* options := gets logOptions in
      let* message :=
        match prop options "enrich" with
        | OFun enrich => ret (enrich message)
        | OVal v =>
            if truthy v then throw (TypeError "logOptions.enrich is not a function")
            else ret message
        end in
      let msg := call_formatter format options message +:+ newline in
      let* msg :=
        if truthy_opt (prop options "colorize") then call_color (logColors lvl) msg
        else ret msg in
      emit (Write msg)
  | KillTask => emit (Kill (pid H) "SIGINT")
  end.

(** [karl[level.toLowerCase()]], the function [_log] of one level. *)
Definition _log (lvl : Level) (c : Call) : M World unit :=
  let* options := gets logOptions in
  let* trace :=
    if truthy_opt (prop options "includeLocationInformation")
    then on_errorConfig (getStackInfo (capture c))
    else ret (Val dummyTrace) in
  let timestamp := now c in
  let* current := gets currentFormatter in
  let format := default defaultFormatter current in
  let parameters := args c in
  setImmediate (LogTask lvl trace timestamp format parameters).

Definition redirectConsole (enable : bool) (w : World) : World :=
  if enable then
    if decide (cprop (console w) "log" = cprop (defaultConsole w) "log") then
      let c := <["log" := FKarl INFO]> (console w) in
      with_console
        (foldl (fun c name =>
                  match karl_method name with
                  | Some l => <[name := FKarl l]> c
                  | None => c
                  end)
               c ["trace"; "debug"; "info"; "warn"; "error"]) w
    else w
  else
    if decide (cprop (console w) "log" <> cprop (defaultConsole w) "log") then
      with_console
        (foldl (fun c name => <[name := cprop (defaultConsole w) name]> c)
               (console w) ["trace"; "debug"; "log"; "info"; "warn"; "error"]) w
    else w.

Definition setOptions (options : gmap string OptVal) (w : World) : World :=
  let w := with_logOptions (extend options [defaultLogOptions]) w in
  let w := redirectConsole (truthy_opt (prop (logOptions w) "redirectConsole")) w in
  with_currentFormatter (Some (getFormatter (logOptions w))) w.

(** The handler registered for [uncaughtException]; [stack] is
    [err.stack]. *)
Definition uncaughtException (stack : Value) (date : Z) (h : HostCapture) : M World unit :=
  _log FATAL {| args := [VStr "UncaughtException: "; stack]; now := date; capture := h |} ;;
  setImmediate KillTask.

(** Evaluation of the module body: the state right after [require]. The
    host's [console] binds each name to the host function of that name. *)
Definition load (hostConsole : gmap string string) (cfg : ErrorConfig) : World :=
  let console0 := FHost <$> hostConsole in
  let saved :=
    foldl (fun d name => <[name := cprop console0 name]> d)
          {["debug" := cprop console0 "log"]}
          ["trace"; "log"; "info"; "warn"; "error"] in
  let w :=
    {| logOptions := defaultLogOptions; currentFormatter := None;
       defaultConsole := saved; console := console0;
       errorConfig := cfg; immediates := []; effects := [] |} in
  if truthy_opt (prop defaultLogOptions "redirectConsole")
  then redirectConsole (truthy_opt (prop defaultLogOptions "redirectConsole")) w
  else w.

(** ** The scheduler

    Deferred tasks run one at a time, oldest first.  An exception that
    leaves a task reaches the process boundary. *)
Inductive Outcome : Type :=
| Quiescent (w : World)
| Uncaught (e : Error) (w : World)
| OutOfFuel (w : World).

Fixpoint run (fuel : nat) (w : World) : Outcome :=
  match immediates w with
  | [] => Quiescent w
  | t :: q =>
      match fuel with
      | O => OutOfFuel w
      | S fuel' =>
          match run_task t (with_immediates q w) with
          | (inl _, w') => run fuel' w'
          | (inr e, w') => Uncaught e w'
          end
      end
  end.

(** Log calls made one after the other by synchronous code: an exception
    leaves the sequence. *)
Fixpoint log_calls (calls : list (Level * Call)) : M World unit :=
  match calls with
  | [] => ret tt
  | (lvl, c) :: rest => _log lvl c ;; log_calls rest
  end.

End Karl.

(** ** Notions used to state the properties *)

(** The formatter a log method captures: [currentFormatter || defaultFormatter]. *)
Definition captured_formatter (w : World) : Formatter :=
  default defaultFormatter (currentFormatter w).

(** [logOptions.enrich] is unset (falsy) or a function, so that the
    deferred part of a log method can get past it. *)
Definition enrich_callable (options : gmap string OptVal) : bool :=
  match prop options "enrich" with
  | OFun _ => true
  | OVal v => negb (truthy v)
  end.

Definition enriched (options : gmap string OptVal) (m : LogEvent) : LogEvent :=
  match prop options "enrich" with
  | OFun enrich => enrich m
  | OVal _ => m
  end.

Definition colored (options : gmap string OptVal) (lvl : Level) (msg : string) : string :=
  if truthy_opt (prop options "colorize") then
    match lvl with
    | TRACE => CSI 32 +:+ msg +:+ CSI 39
    | DEBUG | INFO => msg
    | WARN => CSI 33 +:+ msg +:+ CSI 39
    | ERROR | FATAL => CSI 31 +:+ msg +:+ CSI 39
    end
  else msg.

(** The text a log task writes when it completes. *)
Definition log_line (H : Host) (options : gmap string OptVal) (lvl : Level)
    (caller : CallSite) (date : Z) (format : Formatter) (parameters : list Value) : string :=
  colored options lvl
    (call_formatter H format options
       (enriched options (build_message H lvl caller date parameters)) +:+ newline).

(** A log call made by JavaScript code: the frame of the calling code is
    the innermost one above the log method. *)
Record SiteCall : Type := {
  site_args : list Value;
  site_now : Z;
  site_frame : CallSite;
  site_outer : list CallSite
}.

Definition from_site (c : SiteCall) : Call :=
  {| args := site_args c; now := site_now c;
     capture := Frames (site_frame c :: site_outer c) |}.

(** The call site a log method keeps for such a call. *)
Definition kept_site (options : gmap string OptVal) (c : SiteCall) : CallSite :=
  if truthy_opt (prop options "includeLocationInformation") then site_frame c
  else dummyTrace.

(** States the module can be in after it was loaded under the host console
    [hostConsole]: any sequence of reconfigurations, console toggles, log
    calls, deferred tasks and uncaught-exception notifications. *)
Inductive reachable (H : Host) (hostConsole : gmap string string) : World -> Prop :=
| reach_load cfg :
    reachable H hostConsole (load hostConsole cfg)
| reach_setOptions options w :
    reachable H hostConsole w ->
    reachable H hostConsole (setOptions options w)
| reach_redirect enable w :
    reachable H hostConsole w ->
    reachable H hostConsole (redirectConsole enable w)
| reach_log lvl c w :
    reachable H hostConsole w ->
    reachable H hostConsole (snd (_log lvl c w))
| reach_task t q w :
    reachable H hostConsole w ->
    immediates w = t :: q ->
    reachable H hostConsole (snd (run_task H t (with_immediates q w)))
| reach_uncaught stack date h w :
    reachable H hostConsole w ->
    reachable H hostConsole (snd (uncaughtException stack date h w)).

(** A call-site field holds a value (it is neither [null] nor absent). *)
Definition populated (v : Value) : bool :=
  match v with
  | VUndef | VNull => false
  | _ => true
  end.

Definition location_fields (m : LogEvent) : list Value :=
  [of_str (fileName m); of_str (filePath m); of_num (lineNumber m);
   of_str (functionName m)].

Definition all_or_none (m : LogEvent) : bool :=
  forallb populated (location_fields m)
  || forallb (fun v => negb (populated v)) (location_fields m).

(** No character of the string is a control character (code below 0x20);
    in particular the string has no escape character and no line break. *)
Fixpoint no_control (s : string) : bool :=
  match s with
  | EmptyString => true
  | String c rest => (32 <=? nat_of_ascii c)%nat && no_control rest
  end.

Fixpoint starts_with (prefix s : string) : bool :=
  match prefix, s with
  | EmptyString, _ => true
  | String a p, String b r => Ascii.eqb a b && starts_with p r
  | _, EmptyString => false
  end.

Definition ends_with (suffix s : string) : bool :=
  starts_with (String.rev suffix) (String.rev s).

(** A sample host, for closed examples. *)
Definition sample_host : Host :=
  {| os_hostname := "box";
     applicationName := "app";
     pid := 4711;
     path_basename := fun _ => "main.js";
     path_relative_dir := fun _ => "lib";
     toISOString := fun _ => "2015-08-02T17:56:32.186Z";
     util_inspect := fun _ => "[object]";
     number_of_string := fun _ => "NaN" |}.

Definition sample_console : gmap string string :=
  list_to_map
    [("log", "log"); ("info", "info"); ("warn", "warn");
     ("error", "error"); ("debug", "debug"); ("trace", "trace")].

Definition sample_config : ErrorConfig :=
  {| stackTraceLimit := VNum 10; prepareStackTrace := PrepUser 7 |}.

Definition sample_site : CallSite :=
  {| getFileName := Val "/srv/app/lib/main.js";
     getLineNumber := Val 48;
     getFunctionName := Val "start" |}.

Definition sample_world : World := load sample_console sample_config.

(** The task a log call from JavaScript code queues, and the line that
    task writes, under options [options] and captured formatter [format]. *)
Definition queued (options : gmap string OptVal) (format : Formatter)
    (call : Level * SiteCall) : Task :=
  LogTask (fst call) (Val (kept_site options (snd call))) (site_now (snd call))
          format (site_args (snd call)).

Definition line_of (H : Host) (options : gmap string OptVal) (format : Formatter)
    (call : Level * SiteCall) : string :=
  log_line H options (fst call) (kept_site options (snd call))
           (site_now (snd call)) format (site_args (snd call)).

Definition issue (call : Level * SiteCall) : Level * Call :=
  (fst call, from_site (snd call)).

(** The module variables and console bindings of a state. *)
Definition module_state (w : World) :
    gmap string OptVal * option Formatter * gmap string FnVal * gmap string FnVal :=
  (logOptions w, currentFormatter w, defaultConsole w, console w).

(** What [load] saves of the host console in [defaultConsole]. *)
Definition saved_console (hostConsole : gmap string string) : gmap string FnVal :=
  let console0 := FHost <$> hostConsole in
  <["error" := cprop console0 "error"]>
    (<["warn" := cprop console0 "warn"]>
       (<["info" := cprop console0 "info"]>
          (<["log" := cprop console0 "log"]>
             (<["trace" := cprop console0 "trace"]>
                {["debug" := cprop console0 "log"]})))).

(** The character occurs in the string. *)
Fixpoint has_char (c : ascii) (s : string) : bool :=
  match s with
  | EmptyString => false
  | String d rest => Ascii.eqb c d || has_char c rest
  end.

(** What a turn writes: the calls are made one after the other, then the
    scheduler runs; nothing when a call throws or a task fails. *)
Definition written (H : Host) (w : World) (calls : list (Level * SiteCall))
    (fuel : nat) : list string :=
  match log_calls (map issue calls) w with
  | (inl _, w1) =>
      match run H fuel w1 with
      | Quiescent w2 => stdout w2
      | _ => []
      end
  | (inr _, _) => []
  end.

Definition colorized_world : World :=
  setOptions
    (<["colorize" := OVal (VBool true)]> {["redirectConsole" := OVal (VBool false)]})
    sample_world.

Definition unlocated_world : World :=
  setOptions
    (<["includeLocationInformation" := OVal (VBool false)]>
       {["redirectConsole" := OVal (VBool false)]})
    sample_world.

Definition native_world : World :=
  setOptions {["redirectConsole" := OVal (VBool false)]} sample_world.

Definition yellow_call : SiteCall :=
  {| site_args := [VStr "Should be in yellow."]; site_now := 0;
     site_frame := sample_site; site_outer := [] |}.

Definition queue_call : SiteCall :=
  {| site_args := [VStr "Created queue %d."; VNum 3]; site_now := 1;
     site_frame := sample_site; site_outer := [sample_site] |}.

Definition unlocated_event : LogEvent :=
  build_message sample_host WARN dummyTrace 0 [VStr "Should be in yellow."].

(** A frame of top-level code: V8 has no function name for it. *)
Definition toplevel_site : CallSite :=
  {| getFileName := Val "/srv/app/karltest.js";
     getLineNumber := Val 48;
     getFunctionName := Null |}.

Definition toplevel_event : LogEvent :=
  build_message sample_host INFO toplevel_site 0 [VStr "You have %d options."; VNum 3].

Definition sample_event : LogEvent :=
  build_message sample_host WARN sample_site 0 [VStr "Should be in yellow."].

(** [stack[0]]. *)
Definition first_frame (fs : list CallSite) : Nullable CallSite :=
  match fs with
  | [] => Undefined
  | frame :: _ => Val frame
  end.

(** The bindings an effective enable leaves. *)
Definition enabled (c : gmap string FnVal) : gmap string FnVal :=
  <["error" := FKarl ERROR]>
    (<["warn" := FKarl WARN]>
       (<["info" := FKarl INFO]>
          (<["debug" := FKarl DEBUG]>
             (<["trace" := FKarl TRACE]> (<["log" := FKarl INFO]> c))))).

(** The bindings an effective disable leaves. *)
Definition restored (d c : gmap string FnVal) : gmap string FnVal :=
  <["error" := cprop d "error"]>
    (<["warn" := cprop d "warn"]>
       (<["info" := cprop d "info"]>
          (<["log" := cprop d "log"]>
             (<["debug" := cprop d "debug"]> (<["trace" := cprop d "trace"]> c))))).

(** While the console counts as native, [console.debug] is the saved
    binding. *)
Definition debug_restored (w : World) : Prop :=
  cprop (console w) "log" = cprop (defaultConsole w) "log" ->
  cprop (console w) "debug" = cprop (defaultConsole w) "debug".

(** Induction on values, through the properties of objects. *)
Fixpoint Value_nested_ind (P : Value -> Prop)
    (Hundef : P VUndef) (Hnull : P VNull) (Hbool : forall b, P (VBool b))
    (Hnum : forall n, P (VNum n)) (Hstr : forall s, P (VStr s))
    (Hobj : forall fields, Forall (fun kv => P (snd kv)) fields -> P (VObj fields))
    (v : Value) {struct v} : P v :=
  match v with
  | VUndef => Hundef
  | VNull => Hnull
  | VBool b => Hbool b
  | VNum n => Hnum n
  | VStr s => Hstr s
  | VObj fields =>
      Hobj fields
        ((fix all (fs : list (string * Value)) : Forall (fun kv => P (snd kv)) fs :=
            match fs with
            | [] => @List.Forall_nil _ _
            | (k, x) :: rest =>
                @List.Forall_cons _ (fun kv => P (snd kv)) (k, x) rest
                  (Value_nested_ind P Hundef Hnull Hbool Hnum Hstr Hobj x)
                  (all rest)
            end) fields)
  end.

(** ** Further notions *)

(** The value of property [k] in the first of the objects that has it. *)
Definition first_hit {V} (k : string) (objects : list (gmap string V)) : option V :=
  foldr (fun o found => match o !! k with Some v => Some v | None => found end)
        None objects.

(** The state a run of the scheduler ends in. *)
Definition outcome_world (o : Outcome) : World :=
  match o with
  | Quiescent w | Uncaught _ w | OutOfFuel w => w
  end.

(** The console entry points the interceptor handles. *)
Definition console_names : list string :=
  ["trace"; "debug"; "log"; "info"; "warn"; "error"].

(** The host console as the module finds it. *)
Definition host_bindings (hostConsole : gmap string string) : gmap string FnVal :=
  FHost <$> hostConsole.

(** The writes among some effects. *)
Definition writes (es : list Effect) : list string :=
  omap (fun e => match e with Write t => Some t | Kill _ _ => None end) es.

(** A frame of the [uncaughtException] handler, the caller of its
    [karl.fatal]. *)
Definition handler_site : CallSite :=
  {| getFileName := Val "/srv/app/node_modules/karl/lib/karl.js";
     getLineNumber := Val 449;
     getFunctionName := Null |}.

Definition frameless_call : Call :=
  {| args := [VStr "hello"]; now := 0; capture := Frames [] |}.

Definition throwing_call : Call :=
  {| args := [VStr "hello"]; now := 0;
     capture := CaptureThrows (HostError "Maximum call stack size exceeded") |}.

Definition broken_enrich_world : World :=
  setOptions {["enrich" := OVal (VBool true)]} sample_world.

Definition text_options : gmap string OptVal :=
  <["json" := OVal (VBool false)]> {["redirectConsole" := OVal (VBool false)]}.

(** ** The earlier revision kept in lib/karl.js

    Levels DEBUG to FATAL, an option [humanReadable], a third formatter,
    and an interceptor for four console entry points. *)

Module Legacy.

Inductive Formatter : Type :=
| JsonFormatter
| JsonPrettyPrintFormatter
| TextFormatter.

Definition LOG_LEVELS : list Level := [DEBUG; INFO; WARN; ERROR; FATAL].

Definition defaultLogOptions : gmap string OptVal :=
  list_to_map
    [("includeLocationInformation", OVal (VBool true));
     ("colorize", OVal (VBool false));
     ("redirectConsole", OVal (VBool true));
     ("humanReadable", OVal (VBool false));
     ("json", OVal (VBool true))].

Definition getFormatter (options : gmap string OptVal) : Formatter :=
  if negb (truthy_opt (prop options "humanReadable")) then JsonFormatter
  else if truthy_opt (prop options "json") then JsonPrettyPrintFormatter
  else TextFormatter.

Definition karl_method (name : string) : option Level :=
  List.find (fun l => String.eqb (toLowerCase (level_name l)) name) LOG_LEVELS.

(** The module variables of the earlier revision and the console. *)
Record State : Type := {
  logOptions : gmap string OptVal;
  currentFormatter : option Formatter;
  defaultConsole : gmap string FnVal;
  console : gmap string FnVal
}.

Definition with_console (c : gmap string FnVal) (s : State) : State :=
  {| logOptions := logOptions s; currentFormatter := currentFormatter s;
     defaultConsole := defaultConsole s; console := c |}.

Definition redirectConsole (enable : bool) (s : State) : State :=
  if enable then
    if decide (cprop (console s) "log" = cprop (defaultConsole s) "log") then
      let c := <["log" := FKarl INFO]> (console s) in
      with_console
        (foldl (fun c name =>
                  match karl_method name with
                  | Some l => <[name := FKarl l]> c
                  | None => c
                  end)
               c ["info"; "warn"; "error"]) s
    else s
  else
    if decide (cprop (console s) "log" <> cprop (defaultConsole s) "log") then
      with_console
        (foldl (fun c name => <[name := cprop (defaultConsole s) name]> c)
               (console s) ["log"; "info"; "warn"; "error"]) s
    else s.

Definition setOptions (options : gmap string OptVal) (s : State) : State :=
  let s := {| logOptions := extend options [defaultLogOptions];
              currentFormatter := currentFormatter s;
              defaultConsole := defaultConsole s; console := console s |} in
  let s := redirectConsole (truthy_opt (prop (logOptions s) "redirectConsole")) s in
  {| logOptions := logOptions s;
     currentFormatter := Some (getFormatter (logOptions s));
     defaultConsole := defaultConsole s; console := console s |}.

Definition load (hostConsole : gmap string string) : State :=
  let console0 := FHost <$> hostConsole in
  let saved :=
    foldl (fun d name => <[name := cprop console0 name]> d)
          ∅ ["log"; "info"; "warn"; "error"] in
  let s :=
    {| logOptions := defaultLogOptions; currentFormatter := None;
       defaultConsole := saved; console := console0 |} in
  if truthy_opt (prop defaultLogOptions "redirectConsole")
  then redirectConsole (truthy_opt (prop defaultLogOptions "redirectConsole")) s
  else s.

(** States after load: reconfigurations and console toggles. *)
Inductive reachable (hostConsole : gmap string string) : State -> Prop :=
| reach_load : reachable hostConsole (load hostConsole)
| reach_setOptions options s :
    reachable hostConsole s -> reachable hostConsole (setOptions options s)
| reach_redirect enable s :
    reachable hostConsole s -> reachable hostConsole (redirectConsole enable s).

(** What [load] saves, and the bindings an effective enable or disable
    leaves. *)
Definition saved_console (hostConsole : gmap string string) : gmap string FnVal :=
  let console0 := FHost <$> hostConsole in
  <["error" := cprop console0 "error"]>
    (<["warn" := cprop console0 "warn"]>
       (<["info" := cprop console0 "info"]>
          (<["log" := cprop console0 "log"]> ∅))).

Definition enabled (c : gmap string FnVal) : gmap string FnVal :=
  <["error" := FKarl ERROR]>
    (<["warn" := FKarl WARN]>
       (<["info" := FKarl INFO]> (<["log" := FKarl INFO]> c))).

Definition restored (d c : gmap string FnVal) : gmap string FnVal :=
  <["error" := cprop d "error"]>
    (<["warn" := cprop d "warn"]>
       (<["info" := cprop d "info"]> (<["log" := cprop d "log"]> c))).

(** The options an object selects once the defaults are mixed in. *)
Definition wants_humanReadable (options : gmap string OptVal) : bool :=
  match options !! "humanReadable" with
  | Some v => truthy_opt v
  | None => false
  end.

Definition wants_json (options : gmap string OptVal) : bool :=
  match options !! "json" with
  | Some v => truthy_opt v
  | None => true
  end.

End Legacy.





(** * Properties *)

(** ** [extend] *)

Lemma copy_own_empty {V} (o : gmap string V) : copy_own o ∅ = o.
Proof.
  unfold copy_own.
  apply (map_fold_weak_ind (fun r m => r = m)); [done|].
  intros i x m r _ ->. done.
Qed.

Lemma mix_in_union {V} (target source : gmap string V) :
  mix_in target source = target ∪ source.
Proof.
  unfold mix_in.
  apply (map_fold_weak_ind (fun r m => r = target ∪ m)).
  - by rewrite (right_id_L ∅ (∪)).
  - intros i x m r Hm ->.
    case_decide as Hi.
    + destruct Hi as [y Hy].
      apply lookup_union_Some_raw in Hy as [Hy|[_ Hy]]; [|congruence].
      apply map_eq; intros j. rewrite !lookup_union.
      destruct (decide (i = j)) as [->|Hne].
      * rewrite lookup_insert_eq, Hy, Hm. done.
      * by rewrite lookup_insert_ne.
    + rewrite insert_union_r; [done|].
      rewrite <- not_eq_None_Some in Hi.
      apply dec_stable in Hi.
      by apply lookup_union_None in Hi as [? _].
Qed.

Lemma extend_defaults {V} (options defaults : gmap string V) :
  extend options [defaults] = options ∪ defaults.
Proof. unfold extend. simpl. by rewrite copy_own_empty, mix_in_union. Qed.

(** The example in the documentation of [extend]. *)
Example extend_documented :
  extend ({[ "a" := 1 ]} : gmap string Z)
         [ {[ "a" := 2 ]} ∪ {[ "b" := 3 ]}; {[ "c" := 4 ]} ]
  = {[ "a" := 1 ]} ∪ {[ "b" := 3 ]} ∪ {[ "c" := 4 ]}.
Proof.
  unfold extend. simpl. rewrite copy_own_empty, !mix_in_union.
  apply map_eq; intros k. rewrite !lookup_union.
  destruct (decide (k = "a")) as [->|?]; [done|].
  rewrite !(lookup_singleton_ne "a") by done.
  by destruct ({[ "b" := 3 ]} !! k), ({[ "c" := 4 ]} !! k).
Qed.

Lemma logOptions_redirectConsole enable w :
  logOptions (redirectConsole enable w) = logOptions w.
Proof. unfold redirectConsole. by repeat case_match. Qed.

Lemma logOptions_setOptions options w :
  logOptions (setOptions options w) = options ∪ defaultLogOptions.
Proof.
  unfold setOptions. simpl.
  by rewrite logOptions_redirectConsole, extend_defaults.
Qed.

(** C3. [setOptions] merges the given object against the defaults and
    never against the options that were active: the new options are the
    given ones completed by [defaultLogOptions], so a key the object omits
    gets its default whatever the state before the call was; after
    [setOptions({ colorize: true })] the options are colorize true and
    includeLocationInformation, redirectConsole, json true. *)
Theorem setOptions_merges_against_defaults (options : gmap string OptVal) (w : World) :
  logOptions (setOptions options w) = options ∪ defaultLogOptions
  /\ (forall k,
        logOptions (setOptions options w) !! k
        = match options !! k with
          | Some v => Some v
          | None => defaultLogOptions !! k
          end)
  /\ (let w' := setOptions {[ "colorize" := OVal (VBool true) ]} w in
      prop (logOptions w') "colorize" = OVal (VBool true)
      /\ prop (logOptions w') "includeLocationInformation" = OVal (VBool true)
      /\ prop (logOptions w') "redirectConsole" = OVal (VBool true)
      /\ prop (logOptions w') "json" = OVal (VBool true)
      /\ prop (logOptions w') "enrich" = OVal VUndef).
Proof.
  split; [apply logOptions_setOptions|].
  split.
  - intros k. rewrite logOptions_setOptions, lookup_union.
    destruct (options !! k); simpl; [|by destruct (defaultLogOptions !! k)].
    by destruct (defaultLogOptions !! k).
  - cbv zeta. rewrite logOptions_setOptions. unfold prop.
    repeat split; by vm_compute.
Qed.

(** ** The call-site resolver *)

Lemma getStackInfo_unfold h cfg :
  getStackInfo h cfg =
  match h with
  | CaptureThrows e =>
      (inr e, {| stackTraceLimit := VNum 1;
                 prepareStackTrace := prepareStackTrace cfg |})
  | StackThrows _ e =>
      (inr e, {| stackTraceLimit := VNum 1; prepareStackTrace := PrepCapture |})
  | Frames fs => (inl (first_frame fs), cfg)
  end.
Proof. destruct h as [e|fs e|fs], cfg; try reflexivity. by destruct fs. Qed.

(** C2, as the code has it.  On every path on which [getStackInfo]
    returns, [Error.stackTraceLimit] and [Error.prepareStackTrace] hold
    their prior values again; the restoration is not unconditional: on a
    path on which the capture step throws the exception leaves
    [getStackInfo] with the depth limit still at 1. *)
Theorem getStackInfo_restores_on_return (h : HostCapture) (cfg : ErrorConfig) :
  match getStackInfo h cfg with
  | (inl _, cfg') => cfg' = cfg
  | (inr _, cfg') => stackTraceLimit cfg' = VNum 1
  end.
Proof. rewrite getStackInfo_unfold. by destruct h. Qed.

(** C2, counterexample: [Error.captureStackTrace] throws while the limit
    was 10 and a formatter was installed; the resolver is left by the
    exception and the limit stays 1. *)
Lemma getStackInfo_throw_leaves_limit :
  getStackInfo (CaptureThrows (HostError "capture failed")) sample_config
  = (inr (HostError "capture failed"),
     {| stackTraceLimit := VNum 1; prepareStackTrace := PrepUser 7 |})
  /\ snd (getStackInfo (CaptureThrows (HostError "capture failed")) sample_config)
     <> sample_config.
Proof. split; [reflexivity|]. simpl. discriminate. Qed.

(** ** The console interceptor *)

Lemma redirect_enable w :
  redirectConsole true w =
  if decide (cprop (console w) "log" = cprop (defaultConsole w) "log")
  then with_console (enabled (console w)) w else w.
Proof. reflexivity. Qed.

Lemma redirect_disable w :
  redirectConsole false w =
  if decide (cprop (console w) "log" <> cprop (defaultConsole w) "log")
  then with_console (restored (defaultConsole w) (console w)) w else w.
Proof. reflexivity. Qed.

Lemma enabled_log c : cprop (enabled c) "log" = FKarl INFO.
Proof. unfold cprop, enabled. by rewrite !lookup_insert. Qed.

Lemma enabled_idem c : enabled (enabled c) = enabled c.
Proof.
  apply map_eq; intros k. unfold enabled.
  rewrite !lookup_insert. by repeat case_decide.
Qed.

Lemma restored_log d c : cprop (restored d c) "log" = cprop d "log".
Proof. unfold cprop at 1, restored. by rewrite !lookup_insert. Qed.

Lemma restored_debug d c : cprop (restored d c) "debug" = cprop d "debug".
Proof. unfold cprop at 1, restored. by rewrite !lookup_insert. Qed.

Lemma redirect_enable_idem w :
  redirectConsole true (redirectConsole true w) = redirectConsole true w.
Proof.
  rewrite (redirect_enable w). case_decide as Hg.
  - rewrite redirect_enable. simpl. case_decide; [|done].
    unfold with_console; simpl. by rewrite enabled_idem.
  - rewrite redirect_enable. by case_decide.
Qed.

Lemma redirect_disable_idem w :
  redirectConsole false (redirectConsole false w) = redirectConsole false w.
Proof.
  rewrite (redirect_disable w). case_decide as Hg.
  - rewrite redirect_disable. simpl. rewrite restored_log. by case_decide.
  - rewrite redirect_disable. by case_decide.
Qed.

(** C4. The toggle is idempotent: enable, enable, disable, disable leaves
    the bindings that enable, disable leaves; an enable while the console
    is redirected and a disable while it is native change nothing, so no
    entry point is bound twice. *)
Theorem redirectConsole_idempotent_toggle (w : World) :
  redirectConsole false (redirectConsole false
    (redirectConsole true (redirectConsole true w)))
  = redirectConsole false (redirectConsole true w)
  /\ (cprop (console w) "log" <> cprop (defaultConsole w) "log" ->
      redirectConsole true w = w)
  /\ (cprop (console w) "log" = cprop (defaultConsole w) "log" ->
      redirectConsole false w = w)
  /\ redirectConsole true (redirectConsole true w) = redirectConsole true w
  /\ redirectConsole false (redirectConsole false w) = redirectConsole false w.
Proof.
  split; [by rewrite redirect_enable_idem, redirect_disable_idem|].
  split; [intros Hne; rewrite redirect_enable; by case_decide|].
  split; [intros Heq; rewrite redirect_disable; by case_decide|].
  split; [apply redirect_enable_idem | apply redirect_disable_idem].
Qed.

(** ** The log methods and their deferred part *)

Lemma _log_unfold lvl c w :
  _log lvl c w =
  if truthy_opt (prop (logOptions w) "includeLocationInformation") then
    match getStackInfo (capture c) (errorConfig w) with
    | (inl trace, cfg) =>
        (inl tt,
         with_immediates
           (immediates w
            ++ [LogTask lvl trace (now c) (captured_formatter w) (args c)])
           (with_errorConfig cfg w))
    | (inr e, cfg) => (inr e, with_errorConfig cfg w)
    end
  else
    (inl tt,
     with_immediates
       (immediates w
        ++ [LogTask lvl (Val dummyTrace) (now c) (captured_formatter w) (args c)])
       w).
Proof.
  unfold _log, bind, gets, on_errorConfig, setImmediate, modify, ret. simpl.
  destruct (truthy_opt _); [|done].
  by destruct (getStackInfo _ _) as [[trace|e] cfg].
Qed.

(** A log call from JavaScript code never throws: it queues one task that
    carries the kept call site, and leaves everything else as it was. *)
Lemma _log_from_site lvl c w :
  _log lvl (from_site c) w =
  (inl tt,
   with_immediates
     (immediates w
      ++ [LogTask lvl (Val (kept_site (logOptions w) c)) (site_now c)
            (captured_formatter w) (site_args c)])
     w).
Proof.
  rewrite _log_unfold, getStackInfo_unfold. unfold kept_site. simpl.
  destruct (truthy_opt _); [|done].
  by destruct w.
Qed.

Lemma call_color_colored {S} options lvl msg (s : S) :
  (if truthy_opt (prop options "colorize")
   then call_color (logColors lvl) msg else ret msg) s
  = (inl (colored options lvl msg), s).
Proof.
  unfold colored. destruct (truthy_opt _); [|done].
  by destruct lvl.
Qed.

(** The deferred part of a log method, when it has a call site and
    [enrich] can be called, writes exactly one line. *)
Lemma run_task_log H lvl caller date format parameters w :
  enrich_callable (logOptions w) = true ->
  run_task H (LogTask lvl (Val caller) date format parameters) w =
  (inl tt,
   with_effects
     (effects w
      ++ [Write (log_line H (logOptions w) lvl caller date format parameters)])
     w).
Proof.
  intros He. unfold run_task, log_line, enriched, enrich_callable in *.
  unfold bind at 1. simpl. unfold bind at 1. simpl.
  destruct (prop (logOptions w) "enrich") as [v|f].
  - apply negb_true_iff in He. rewrite He.
    unfold bind at 1. simpl. unfold bind. rewrite call_color_colored. done.
  - unfold bind at 1. simpl. unfold bind. rewrite call_color_colored. done.
Qed.

(** With no call site the deferred part throws before anything is
    written. *)
Lemma run_task_no_site H lvl trace date format parameters w :
  trace = Null \/ trace = Undefined ->
  exists msg,
    run_task H (LogTask lvl trace date format parameters) w
    = (inr (TypeError msg), w).
Proof. intros [-> | ->]; eexists; reflexivity. Qed.

Lemma log_calls_from_sites calls w :
  log_calls (map issue calls) w =
  (inl tt,
   with_immediates
     (immediates w ++ map (queued (logOptions w) (captured_formatter w)) calls) w).
Proof.
  revert w. induction calls as [|[lvl c] calls IH]; intros w.
  - simpl. unfold ret. rewrite app_nil_r. by destruct w.
  - simpl. unfold bind. rewrite _log_from_site, IH. simpl.
    unfold with_immediates; simpl. by rewrite <- app_assoc.
Qed.


Lemma run_nil H fuel w : immediates w = [] -> run H fuel w = Quiescent w.
Proof. intros Hq. destruct fuel; simpl; by rewrite Hq. Qed.

Lemma run_cons H fuel w t q :
  immediates w = t :: q ->
  run H (S fuel) w =
  match run_task H t (with_immediates q w) with
  | (inl _, w') => run H fuel w'
  | (inr e, w') => Uncaught e w'
  end.
Proof. intros Hq. simpl. by rewrite Hq. Qed.



(** ** What the operations leave alone *)

Lemma module_state_eq w' w :
  module_state w' = module_state w ->
  logOptions w' = logOptions w /\ currentFormatter w' = currentFormatter w
  /\ defaultConsole w' = defaultConsole w /\ console w' = console w.
Proof. unfold module_state. intros Hm. by simplify_eq. Qed.

Lemma module_state_log lvl c w :
  module_state (snd (_log lvl c w)) = module_state w.
Proof.
  rewrite _log_unfold. destruct (truthy_opt _); [|done].
  by destruct (getStackInfo _ _) as [[trace|e] cfg].
Qed.

Lemma module_state_run_task H t q w :
  module_state (snd (run_task H t (with_immediates q w))) = module_state w.
Proof.
  destruct t as [lvl trace date format parameters|]; [|done].
  unfold run_task, bind, gets, emit, modify.
  repeat case_match;
    unfold call_color, _colorize, ret, throw in *;
    repeat case_match; by simplify_eq.
Qed.

Lemma module_state_uncaught stack date h w :
  module_state (snd (uncaughtException stack date h w)) = module_state w.
Proof.
  unfold uncaughtException, bind.
  pose proof (module_state_log FATAL
    {| args := [VStr "UncaughtException: "; stack]; now := date; capture := h |} w)
    as Hlog.
  destruct (_log _ _ w) as [[[]|e] w']; simpl in *; done.
Qed.

(** ** Invariants of the reachable states *)

Lemma load_unfold hostConsole cfg :
  load hostConsole cfg =
  {| logOptions := defaultLogOptions; currentFormatter := None;
     defaultConsole := saved_console hostConsole;
     console := enabled (FHost <$> hostConsole);
     errorConfig := cfg; immediates := []; effects := [] |}.
Proof.
  unfold load. simpl. rewrite redirect_enable. simpl.
  fold (saved_console hostConsole).
  case_decide as Hg; [done|].
  exfalso. apply Hg. unfold saved_console, cprop at 2.
  by rewrite !lookup_insert.
Qed.

Lemma host_binding_not_karl (hostConsole : gmap string string) name l :
  cprop (FHost <$> hostConsole) name <> FKarl l.
Proof.
  unfold cprop. rewrite lookup_fmap. by destruct (hostConsole !! name).
Qed.

Lemma saved_console_log hostConsole :
  cprop (saved_console hostConsole) "log" = cprop (FHost <$> hostConsole) "log".
Proof. unfold saved_console, cprop at 1. by rewrite !lookup_insert. Qed.

Lemma saved_console_debug hostConsole :
  cprop (saved_console hostConsole) "debug" = cprop (FHost <$> hostConsole) "log".
Proof. unfold saved_console, cprop at 1. by rewrite !lookup_insert. Qed.

Lemma defaultConsole_redirect enable w :
  defaultConsole (redirectConsole enable w) = defaultConsole w.
Proof. unfold redirectConsole. by repeat case_match. Qed.

Lemma setOptions_unfold options w :
  setOptions options w =
  with_currentFormatter (Some (getFormatter (options ∪ defaultLogOptions)))
    (with_logOptions (options ∪ defaultLogOptions)
       (redirectConsole
          (truthy_opt (prop (options ∪ defaultLogOptions) "redirectConsole")) w)).
Proof.
  unfold setOptions. rewrite extend_defaults. simpl.
  destruct (truthy_opt _).
  - rewrite !redirect_enable. simpl. by case_decide.
  - rewrite !redirect_disable. simpl. by case_decide.
Qed.

Lemma defaultConsole_setOptions options w :
  defaultConsole (setOptions options w) = defaultConsole w.
Proof. unfold setOptions. simpl. by rewrite defaultConsole_redirect. Qed.

(** [defaultConsole] is written once, at load. *)
Lemma reachable_defaultConsole H hostConsole w :
  reachable H hostConsole w -> defaultConsole w = saved_console hostConsole.
Proof.
  induction 1 as [cfg|options w _ IH|enable w _ IH|lvl c w _ IH
                  |t q w _ IH Hq|stack date h w _ IH].
  - by rewrite load_unfold.
  - by rewrite defaultConsole_setOptions.
  - by rewrite defaultConsole_redirect.
  - destruct (module_state_eq _ _ (module_state_log lvl c w)) as (_ & _ & Hd & _).
    by rewrite Hd.
  - destruct (module_state_eq _ _ (module_state_run_task H t q w)) as (_ & _ & Hd & _).
    by rewrite Hd.
  - destruct (module_state_eq _ _ (module_state_uncaught stack date h w))
      as (_ & _ & Hd & _).
    by rewrite Hd.
Qed.

Lemma debug_restored_redirect hostConsole enable w :
  defaultConsole w = saved_console hostConsole ->
  debug_restored w -> debug_restored (redirectConsole enable w).
Proof.
  intros Hd Hinv. unfold debug_restored.
  rewrite defaultConsole_redirect. destruct enable.
  - rewrite redirect_enable. case_decide; [|done]. simpl.
    rewrite enabled_log, Hd, saved_console_log. intros Heq.
    symmetry in Heq. by apply host_binding_not_karl in Heq.
  - rewrite redirect_disable. case_decide; [|done]. simpl.
    by rewrite restored_debug.
Qed.

Lemma reachable_debug_restored H hostConsole w :
  reachable H hostConsole w -> debug_restored w.
Proof.
  induction 1 as [cfg|options w Hr IH|enable w Hr IH|lvl c w Hr IH
                  |t q w Hr IH Hq|stack date h w Hr IH].
  - rewrite load_unfold. unfold debug_restored. simpl.
    rewrite enabled_log, saved_console_log. intros Heq.
    symmetry in Heq. by apply host_binding_not_karl in Heq.
  - rewrite setOptions_unfold.
    apply (debug_restored_redirect hostConsole
             (truthy_opt (prop (options ∪ defaultLogOptions) "redirectConsole")))
      in IH; [done|].
    by apply (reachable_defaultConsole H).
  - apply (debug_restored_redirect hostConsole); [|done].
    by apply (reachable_defaultConsole H).
  - destruct (module_state_eq _ _ (module_state_log lvl c w)) as (_ & _ & Hd & Hc).
    unfold debug_restored in *. by rewrite Hc, Hd.
  - destruct (module_state_eq _ _ (module_state_run_task H t q w))
      as (_ & _ & Hd & Hc).
    unfold debug_restored in *. by rewrite Hc, Hd.
  - destruct (module_state_eq _ _ (module_state_uncaught stack date h w))
      as (_ & _ & Hd & Hc).
    unfold debug_restored in *. by rewrite Hc, Hd.
Qed.

(** C10. [defaultConsole.debug] is the [console.log] found at load, and
    after a disable transition taken in any reachable state, whatever
    enables and disables came before, [console.debug] is that function. *)
Theorem disable_binds_debug_to_original_log (H : Host)
    (hostConsole : gmap string string) (w : World) :
  reachable H hostConsole w ->
  cprop (defaultConsole w) "debug" = cprop (FHost <$> hostConsole) "log"
  /\ cprop (console (redirectConsole false w)) "debug"
     = cprop (FHost <$> hostConsole) "log".
Proof.
  intros Hr.
  pose proof (reachable_defaultConsole H hostConsole w Hr) as Hd.
  pose proof (reachable_debug_restored H hostConsole w Hr) as Hinv.
  rewrite Hd, saved_console_debug. split; [done|].
  rewrite redirect_disable. case_decide as Hg; simpl.
  - by rewrite restored_debug, Hd, saved_console_debug.
  - rewrite (Hinv Hg), Hd. apply saved_console_debug.
Qed.

(** ** Strings *)

Lemma append_nil (b : string) : EmptyString +:+ b = b.
Proof. reflexivity. Qed.

Lemma append_cons c (a b : string) : String c a +:+ b = String c (a +:+ b).
Proof. reflexivity. Qed.

Lemma append_empty_r (s : string) : s +:+ EmptyString = s.
Proof.
  induction s as [|c s IH]; [done|]. by rewrite append_cons, IH.
Qed.

Lemma no_control_append a b :
  no_control (a +:+ b) = no_control a && no_control b.
Proof.
  induction a as [|c a IH]; [done|].
  rewrite append_cons. cbn [no_control]. rewrite IH. by rewrite andb_assoc.
Qed.

Lemma has_char_append c a b :
  has_char c (a +:+ b) = has_char c a || has_char c b.
Proof.
  induction a as [|d a IH]; [done|].
  rewrite append_cons. simpl. rewrite IH. by rewrite orb_assoc.
Qed.

Lemma no_control_no_char c s :
  (nat_of_ascii c < 32)%nat -> no_control s = true -> has_char c s = false.
Proof.
  intros Hc. induction s as [|d s IH]; cbn [has_char no_control]; [done|].
  intros [Hd Hs]%andb_true_iff. rewrite (IH Hs), orb_false_r.
  apply Ascii.eqb_neq. intros ->.
  apply Nat.leb_le in Hd. lia.
Qed.

Lemma no_control_json_escape c : no_control (json_escape c) = true.
Proof. by destruct c as [[] [] [] [] [] [] [] []]. Qed.

Lemma no_control_json_quote s : no_control (json_quote s) = true.
Proof.
  unfold json_quote. rewrite !no_control_append.
  replace (no_control dquote) with true by done. simpl.
  rewrite andb_true_r.
  induction s as [|c s IH]; simpl; [done|].
  by rewrite no_control_append, no_control_json_escape, IH.
Qed.

Lemma no_control_uint d : no_control (NilZero.string_of_uint d) = true.
Proof.
  assert (Hn : forall u, no_control (NilEmpty.string_of_uint u) = true).
  { induction u; simpl; done. }
  destruct d; simpl; try done; apply Hn.
Qed.

Lemma no_control_number_text n : no_control (number_text n) = true.
Proof.
  unfold number_text, NilZero.string_of_int.
  destruct (Z.to_int n); [apply no_control_uint|].
  simpl. apply no_control_uint.
Qed.

Lemma no_control_join sep parts :
  no_control sep = true ->
  Forall (fun p => no_control p = true) parts ->
  no_control (join sep parts) = true.
Proof.
  intros Hsep. induction 1 as [|p parts Hp Hparts IH]; simpl; [done|].
  destruct parts as [|p' parts]; [done|].
  by rewrite !no_control_append, Hp, Hsep, IH.
Qed.

(** [JSON.stringify] produces one line without control characters. *)
Lemma no_control_stringify v :
  forall t, stringify v = Some t -> no_control t = true.
Proof.
  induction v as [| |b|n|s|fields IH] using Value_nested_ind; intros t Ht;
    simpl in Ht.
  - done.
  - by simplify_eq.
  - destruct b; by simplify_eq.
  - simplify_eq. apply no_control_number_text.
  - simplify_eq. apply no_control_json_quote.
  - simplify_eq. rewrite !no_control_append. simpl. rewrite andb_true_r.
    apply no_control_join; [done|].
    induction IH as [|[k x] rest Hx Hrest IHrest]; [constructor|].
    simpl in *. destruct (stringify x) as [tx|] eqn:Hsx; [|done].
    constructor; [|done].
    rewrite !no_control_append, no_control_json_quote. simpl.
    by apply Hx.
Qed.

Lemma no_control_jsonFormatter m : no_control (jsonFormatter m) = true.
Proof.
  unfold jsonFormatter, json_text.
  destruct (stringify (event_value m)) as [t|] eqn:Ht; [|done].
  by apply (no_control_stringify (event_value m)).
Qed.

(** ** Formatter selection *)

Lemma currentFormatter_redirect enable w :
  currentFormatter (redirectConsole enable w) = currentFormatter w.
Proof. unfold redirectConsole. by repeat case_match. Qed.

(** The formatter a log method captures is the one selected by the
    options in force. *)
Lemma reachable_formatter H hostConsole w :
  reachable H hostConsole w ->
  captured_formatter w = getFormatter (logOptions w).
Proof.
  unfold captured_formatter.
  induction 1 as [cfg|options w _ IH|enable w _ IH|lvl c w _ IH
                  |t q w _ IH Hq|stack date h w _ IH].
  - by rewrite load_unfold.
  - by rewrite setOptions_unfold.
  - by rewrite currentFormatter_redirect, logOptions_redirectConsole.
  - destruct (module_state_eq _ _ (module_state_log lvl c w)) as (Ho & Hf & _).
    by rewrite Ho, Hf.
  - destruct (module_state_eq _ _ (module_state_run_task H t q w)) as (Ho & Hf & _).
    by rewrite Ho, Hf.
  - destruct (module_state_eq _ _ (module_state_uncaught stack date h w))
      as (Ho & Hf & _).
    by rewrite Ho, Hf.
Qed.

Lemma textFormatter_with_location H options m :
  truthy_opt (prop options "includeLocationInformation") = true ->
  textFormatter H options m =
  "[" +:+ level m +:+ "] " +:+ timestamp m +:+ " - " +:+ hostName m +:+ " - "
  +:+ process_name m +:+ "[" +:+ to_string (of_str (functionName m)) +:+ "@"
  +:+ to_string (of_str (filePath m)) +:+ "/" +:+ to_string (of_str (fileName m))
  +:+ "(" +:+ to_number_text H (of_num (lineNumber m)) +:+ ")]: " +:+ message m.
Proof.
  intros Hloc. unfold textFormatter. rewrite Hloc.
  cbv [util_format format_template concat_all map Ascii.eqb Bool.eqb orb to_string].
  by rewrite !append_empty_r.
Qed.

Lemma textFormatter_without_location H options m :
  truthy_opt (prop options "includeLocationInformation") = false ->
  textFormatter H options m =
  "[" +:+ level m +:+ "] " +:+ timestamp m +:+ " - " +:+ hostName m +:+ " - "
  +:+ process_name m +:+ ": " +:+ message m.
Proof.
  intros Hloc. unfold textFormatter. rewrite Hloc.
  cbv [util_format format_template concat_all map Ascii.eqb Bool.eqb orb to_string].
  by rewrite !append_empty_r.
Qed.

(** C8. In every reachable state the formatter a log method captures is
    [textFormatter] when [options.json] is false and [jsonFormatter] when
    it is true, and there is no other; [textFormatter] renders an event as
    [[LEVEL] timestamp - hostName - processName[functionName@filePath/fileName(lineNumber)]: message]
    when location information is on and as
    [[LEVEL] timestamp - hostName - processName: message] when it is off
    (fields as [%s] prints them, the line number as [%d] does);
    [jsonFormatter] is [JSON.stringify] of the event, on one line. *)
Theorem formatter_selection_and_text_layout (H : Host)
    (hostConsole : gmap string string) (w : World)
    (options : gmap string OptVal) (m : LogEvent) (lvl : Level) (c : SiteCall) :
  reachable H hostConsole w ->
  _log lvl (from_site c) w =
  (inl tt,
   with_immediates
     (immediates w
      ++ [queued (logOptions w) (getFormatter (logOptions w)) (lvl, c)]) w)
  /\ (prop (logOptions w) "json" = OVal (VBool false) ->
      captured_formatter w = TextFormatter)
  /\ (prop (logOptions w) "json" = OVal (VBool true) ->
      captured_formatter w = JsonFormatter)
  /\ captured_formatter w
     = (if truthy_opt (prop (logOptions w) "json")
        then JsonFormatter else TextFormatter)
  /\ (truthy_opt (prop options "includeLocationInformation") = true ->
      call_formatter H TextFormatter options m =
      "[" +:+ level m +:+ "] " +:+ timestamp m +:+ " - " +:+ hostName m +:+ " - "
      +:+ process_name m +:+ "[" +:+ to_string (of_str (functionName m)) +:+ "@"
      +:+ to_string (of_str (filePath m)) +:+ "/"
      +:+ to_string (of_str (fileName m))
      +:+ "(" +:+ to_number_text H (of_num (lineNumber m)) +:+ ")]: "
      +:+ message m)
  /\ (truthy_opt (prop options "includeLocationInformation") = false ->
      call_formatter H TextFormatter options m =
      "[" +:+ level m +:+ "] " +:+ timestamp m +:+ " - " +:+ hostName m +:+ " - "
      +:+ process_name m +:+ ": " +:+ message m)
  /\ call_formatter H JsonFormatter options m = json_text (event_value m)
  /\ has_char (ascii_of_nat 10) (call_formatter H JsonFormatter options m) = false.
Proof.
  intros Hr. pose proof (reachable_formatter H hostConsole w Hr) as Hf.
  split; [by rewrite _log_from_site, Hf|].
  unfold getFormatter in Hf.
  split; [intros Hj; by rewrite Hf, Hj|].
  split; [intros Hj; by rewrite Hf, Hj|].
  split; [done|].
  split; [apply textFormatter_with_location|].
  split; [apply textFormatter_without_location|].
  split; [done|].
  apply no_control_no_char; [vm_compute; lia|].
  apply no_control_jsonFormatter.
Qed.

(** ** Colours *)

Lemma run_task_log_inv H lvl trace date format parameters w w' :
  run_task H (LogTask lvl trace date format parameters) w = (inl tt, w') ->
  exists caller,
    trace = Val caller
    /\ enrich_callable (logOptions w) = true
    /\ w' = with_effects
              (effects w
               ++ [Write (log_line H (logOptions w) lvl caller date format parameters)])
              w.
Proof.
  intros Hrun. destruct trace as [| |caller]; try discriminate.
  exists caller. split; [done|].
  destruct (enrich_callable (logOptions w)) eqn:He.
  - rewrite run_task_log in Hrun by done. by simplify_eq.
  - exfalso. unfold enrich_callable in He.
    unfold run_task, bind in Hrun. simpl in Hrun.
    destruct (prop (logOptions w) "enrich") as [v|f]; [|done].
    apply negb_false_iff in He. rewrite He in Hrun. discriminate.
Qed.

(** C5, as the code has it.  With [colorize] on, every WARN output is the
    yellow start escape, the formatted line, the newline and then the
    reset escape: the reset escape is what the output ends with and the
    newline stands immediately before it.  Every INFO output is the
    formatted line and the newline with nothing added, and contains no
    escape character at all when the formatter is [jsonFormatter]. *)
Theorem colorize_wraps_line_and_newline (H : Host) (w w1 w2 : World)
    (trace : Nullable CallSite) (date : Z) (format : Formatter)
    (parameters : list Value) :
  truthy_opt (prop (logOptions w) "colorize") = true ->
  run_task H (LogTask WARN trace date format parameters) w = (inl tt, w1) ->
  run_task H (LogTask INFO trace date format parameters) w = (inl tt, w2) ->
  exists caller,
    trace = Val caller
    /\ effects w1 =
       (effects w ++
        [Write (String ESC "[33m"
                +:+ (call_formatter H format (logOptions w)
                       (enriched (logOptions w)
                          (build_message H WARN caller date parameters))
                     +:+ newline)
                +:+ String ESC "[39m")])%list
    /\ effects w2 =
       (effects w ++
        [Write (call_formatter H format (logOptions w)
                  (enriched (logOptions w)
                     (build_message H INFO caller date parameters))
                +:+ newline)])%list
    /\ (format = JsonFormatter ->
        forall text, In (Write text) (effects w2) -> ~ In (Write text) (effects w) ->
        has_char ESC text = false).
Proof.
  intros Hc Hwarn Hinfo.
  apply run_task_log_inv in Hwarn as (caller & -> & He & ->).
  apply run_task_log_inv in Hinfo as (caller' & Heq & _ & ->).
  simplify_eq. exists caller'. split; [done|].
  unfold log_line, colored. rewrite Hc. simpl.
  split; [done|]. split; [done|].
  intros -> text Hin Hnot.
  apply in_app_or in Hin as [Hin|Hin]; [done|].
  destruct Hin as [Heq|[]]. simplify_eq.
  rewrite has_char_append, orb_false_iff. split; [|done].
  apply no_control_no_char; [vm_compute; lia|].
  apply no_control_jsonFormatter.
Qed.

(** ** Call-site fields *)

(** C6, as the code has it.  In the event a log method assembles,
    [functionName] always holds a value (the sentinel when the name is
    unresolved), and [fileName] and [filePath] are populated together or
    not at all; with location capture off the method keeps [dummyTrace],
    for which [fileName], [filePath] and [lineNumber] are null and
    [functionName] is the sentinel. *)
Theorem location_fields_of_built_message (H : Host) (lvl : Level)
    (caller : CallSite) (date : Z) (parameters : list Value) (c : Call) (w : World) :
  let m := build_message H lvl caller date parameters in
  let off := build_message H lvl dummyTrace date parameters in
  populated (of_str (functionName m)) = true
  /\ populated (of_str (fileName m)) = populated (of_str (filePath m))
  /\ (fileName off = Null /\ filePath off = Null /\ lineNumber off = Null
      /\ functionName off = Val "<anonymous>")
  /\ (truthy_opt (prop (logOptions w) "includeLocationInformation") = false ->
      _log lvl c w =
      (inl tt,
       with_immediates
         (immediates w
          ++ [LogTask lvl (Val dummyTrace) (now c) (captured_formatter w) (args c)])
         w)).
Proof.
  cbv zeta. split; [|split; [|split]].
  - simpl. destruct (getFunctionName caller) as [| |s]; simpl; try done.
    by destruct (negb _).
  - simpl. destruct (getFileName caller) as [| |s]; simpl; try done.
    by destruct (negb _).
  - done.
  - intros Hoff. by rewrite _log_unfold, Hoff.
Qed.

(** ** The uncaught-exception handler *)

Lemma uncaught_message H caller date stack :
  message (build_message H FATAL caller date [VStr "UncaughtException: "; VStr stack])
  = "UncaughtException: " +:+ " " +:+ stack.
Proof.
  unfold build_message. cbn [message].
  cbv [util_format format_template concat_all map Ascii.eqb Bool.eqb orb
       format_rest to_string].
  by rewrite append_empty_r.
Qed.

(** C9. The handler never throws when called from JavaScript code: it
    queues the FATAL log task and, behind it, the task that raises
    SIGINT.  The FATAL event's message is the prefix
    ["UncaughtException: "], the separating space of [util.format] and the
    error's stack.  Run oldest first, the write of the FATAL line comes
    before the signal. *)
Theorem uncaughtException_logs_then_signals (H : Host) (w : World)
    (stack : string) (date : Z) (frame : CallSite) (outer : list CallSite) :
  immediates w = [] ->
  enrich_callable (logOptions w) = true ->
  let call :=
    (FATAL, {| site_args := [VStr "UncaughtException: "; VStr stack];
               site_now := date; site_frame := frame; site_outer := outer |}) in
  let event :=
    build_message H FATAL (kept_site (logOptions w) (snd call)) date
      [VStr "UncaughtException: "; VStr stack] in
  exists w1 w2,
    uncaughtException (VStr stack) date (Frames (frame :: outer)) w = (inl tt, w1)
    /\ immediates w1
       = [queued (logOptions w) (captured_formatter w) call; KillTask]
    /\ level event = "FATAL"
    /\ message event = "UncaughtException: " +:+ " " +:+ stack
    /\ run H 2 w1 = Quiescent w2
    /\ effects w2 =
       (effects w ++
        [Write (line_of H (logOptions w) (captured_formatter w) call);
         Kill (pid H) "SIGINT"])%list.
Proof.
  intros Hq He call event.
  pose proof (_log_from_site FATAL (snd call) w) as Hlog.
  unfold from_site in Hlog. simpl in Hlog. rewrite Hq in Hlog. simpl in Hlog.
  set (task := queued (logOptions w) (captured_formatter w) call).
  exists (with_immediates [task; KillTask] w).
  exists (with_immediates []
            (with_effects
               (effects w ++
                [Write (line_of H (logOptions w) (captured_formatter w) call);
                 Kill (pid H) "SIGINT"]) w)).
  split.
  { unfold uncaughtException, bind. rewrite Hlog. reflexivity. }
  split; [done|]. split; [done|].
  split; [apply uncaught_message|].
  split; [|done].
  rewrite (run_cons H 1 _ task [KillTask]) by done.
  unfold task, queued. cbn [fst snd call].
  rewrite run_task_log by done.
  rewrite (run_cons H 0 _ KillTask []) by done.
  unfold run_task, emit, modify. rewrite run_nil by done.
  unfold with_immediates, with_effects, line_of. simpl.
  by rewrite <- app_assoc.
Qed.

(** ** A log call with no frame to capture *)

(** C7, on the code: when the capture finds no frame above the log method
    the resolver returns [undefined]; the call itself returns, but its
    deferred part throws a TypeError on [caller.getFileName()] and writes
    nothing.  The last part runs this from the loaded module. *)
Theorem log_without_frame_throws_when_deferred (H : Host) (w : World)
    (lvl : Level) (date : Z) (format : Formatter) (parameters : list Value) :
  getStackInfo (Frames []) (errorConfig w) = (inl Undefined, errorConfig w)
  /\ run_task H (LogTask lvl Undefined date format parameters) w
     = (inr (TypeError "Cannot read property getFileName of undefined"), w)
  /\ run_task H (LogTask lvl Null date format parameters) w
     = (inr (TypeError "Cannot read property getFileName of null"), w)
  /\ (let call := {| args := [VStr "hello"]; now := 0; capture := Frames [] |} in
      let queued_world := snd (_log INFO call sample_world) in
      fst (_log INFO call sample_world) = inl tt
      /\ immediates queued_world = [LogTask INFO Undefined 0 JsonFormatter [VStr "hello"]]
      /\ exists w',
           run sample_host 1 queued_world
           = Uncaught (TypeError "Cannot read property getFileName of undefined") w'
           /\ stdout w' = []).
Proof.
  split; [by rewrite getStackInfo_unfold|].
  split; [done|]. split; [done|].
  cbv zeta. split; [by vm_compute|]. split; [by vm_compute|].
  eexists. split; [by vm_compute|]. by vm_compute.
Qed.

(** ** Closed instances *)

(** C5, counterexample: the WARN line written with [colorize] on starts
    with the yellow escape and ends with the reset escape that follows the
    newline; it does not end with the newline, and the reset escape does
    not stand before a trailing newline. *)
Lemma warn_output_ends_with_reset_escape :
  exists text,
    written sample_host colorized_world [(WARN, yellow_call)] 1 = [text]
    /\ starts_with (String ESC "[33m") text = true
    /\ ends_with (newline +:+ String ESC "[39m") text = true
    /\ ends_with (String ESC "[39m" +:+ newline) text = false
    /\ ends_with newline text = false.
Proof.
  eexists. split; [vm_compute; reflexivity|].
  repeat split; vm_compute; reflexivity.
Qed.

(** C6, counterexample: with location capture off the event written has
    [fileName], [filePath] and [lineNumber] null and [functionName]
    populated with the sentinel; and for a call from top-level code with
    location capture on, the file and the line are populated while the
    function name is the sentinel of an unresolved name. *)
Lemma unlocated_event_is_partly_populated :
  written sample_host unlocated_world [(WARN, yellow_call)] 1
  = [jsonFormatter unlocated_event +:+ newline]
  /\ fileName unlocated_event = Null
  /\ filePath unlocated_event = Null
  /\ lineNumber unlocated_event = Null
  /\ functionName unlocated_event = Val "<anonymous>"
  /\ all_or_none unlocated_event = false
  /\ fileName toplevel_event = Val "main.js"
  /\ lineNumber toplevel_event = Val 48
  /\ functionName toplevel_event = Val "<anonymous>".
Proof. repeat split; vm_compute; reflexivity. Qed.








(** The loaded module has the console redirected; after
    [setOptions({ redirectConsole: false })] it is native. *)
Lemma redirectConsole_idempotent_toggle_witness :
  cprop (console sample_world) "log" <> cprop (defaultConsole sample_world) "log"
  /\ redirectConsole true sample_world = sample_world
  /\ cprop (console native_world) "log" = cprop (defaultConsole native_world) "log"
  /\ redirectConsole false native_world = native_world.
Proof.
  assert (Hne : cprop (console sample_world) "log"
                <> cprop (defaultConsole sample_world) "log")
    by (vm_compute; discriminate).
  assert (Heq : cprop (console native_world) "log"
                = cprop (defaultConsole native_world) "log")
    by (vm_compute; reflexivity).
  split; [exact Hne|].
  split; [exact (proj1 (proj2 (redirectConsole_idempotent_toggle sample_world)) Hne)|].
  split; [exact Heq|].
  exact (proj1 (proj2 (proj2 (redirectConsole_idempotent_toggle native_world))) Heq).
Defined.

(** A disable after the console was restored once. *)
Lemma disable_binds_debug_to_original_log_witness :
  reachable sample_host sample_console native_world
  /\ cprop (defaultConsole native_world) "debug"
     = cprop (FHost <$> sample_console) "log"
  /\ cprop (console (redirectConsole false native_world)) "debug"
     = cprop (FHost <$> sample_console) "log".
Proof.
  assert (Hr : reachable sample_host sample_console native_world)
    by (apply reach_setOptions, reach_load).
  split; [exact Hr|].
  exact (disable_binds_debug_to_original_log sample_host sample_console
           native_world Hr).
Defined.

(** The two calls of the colour tests, with [colorize] on. *)
Lemma colorize_wraps_line_and_newline_witness :
  truthy_opt (prop (logOptions colorized_world) "colorize") = true
  /\ exists caller,
       Val sample_site = Val caller
       /\ effects (snd (run_task sample_host
                          (LogTask WARN (Val sample_site) 0 JsonFormatter
                             [VStr "Should be in yellow."]) colorized_world)) =
          (effects colorized_world ++
           [Write (String ESC "[33m"
                   +:+ (call_formatter sample_host JsonFormatter
                          (logOptions colorized_world)
                          (enriched (logOptions colorized_world)
                             (build_message sample_host WARN caller 0
                                [VStr "Should be in yellow."]))
                        +:+ newline)
                   +:+ String ESC "[39m")])%list
       /\ effects (snd (run_task sample_host
                          (LogTask INFO (Val sample_site) 0 JsonFormatter
                             [VStr "Should be in yellow."]) colorized_world)) =
          (effects colorized_world ++
           [Write (call_formatter sample_host JsonFormatter
                     (logOptions colorized_world)
                     (enriched (logOptions colorized_world)
                        (build_message sample_host INFO caller 0
                           [VStr "Should be in yellow."]))
                   +:+ newline)])%list
       /\ (JsonFormatter = JsonFormatter ->
           forall text,
             In (Write text)
                (effects (snd (run_task sample_host
                                 (LogTask INFO (Val sample_site) 0 JsonFormatter
                                    [VStr "Should be in yellow."]) colorized_world))) ->
             ~ In (Write text) (effects colorized_world) ->
             has_char ESC text = false).
Proof.
  split; [vm_compute; reflexivity|].
  apply (colorize_wraps_line_and_newline sample_host colorized_world).
  - vm_compute; reflexivity.
  - vm_compute; reflexivity.
  - vm_compute; reflexivity.
Defined.

(** A call with location capture switched off. *)
Lemma location_fields_of_built_message_witness :
  truthy_opt (prop (logOptions unlocated_world) "includeLocationInformation") = false
  /\ populated (of_str (functionName sample_event)) = true
  /\ populated (of_str (fileName sample_event))
     = populated (of_str (filePath sample_event))
  /\ _log WARN (from_site yellow_call) unlocated_world =
     (inl tt,
      with_immediates
        (immediates unlocated_world
         ++ [LogTask WARN (Val dummyTrace) 0 (captured_formatter unlocated_world)
               [VStr "Should be in yellow."]])
        unlocated_world).
Proof.
  assert (Hoff : truthy_opt
                   (prop (logOptions unlocated_world) "includeLocationInformation")
                 = false) by (vm_compute; reflexivity).
  pose proof (location_fields_of_built_message sample_host WARN sample_site 0
                [VStr "Should be in yellow."] (from_site yellow_call)
                unlocated_world) as (Hfn & Hfile & _ & Hlog).
  split; [exact Hoff|]. split; [exact Hfn|]. split; [exact Hfile|].
  exact (Hlog Hoff).
Defined.

(** The loaded module selects [jsonFormatter]; the text layout on a
    sample event. *)
Lemma formatter_selection_and_text_layout_witness :
  reachable sample_host sample_console sample_world
  /\ prop (logOptions sample_world) "json" = OVal (VBool true)
  /\ captured_formatter sample_world = JsonFormatter
  /\ truthy_opt (prop (logOptions sample_world) "includeLocationInformation") = true
  /\ call_formatter sample_host TextFormatter (logOptions sample_world) sample_event
     = "[WARN] 2015-08-02T17:56:32.186Z - box - app[start@lib/main.js(48)]: Should be in yellow.".
Proof.
  assert (Hr : reachable sample_host sample_console sample_world)
    by apply reach_load.
  assert (Hj : prop (logOptions sample_world) "json" = OVal (VBool true))
    by (vm_compute; reflexivity).
  assert (Hloc : truthy_opt
                   (prop (logOptions sample_world) "includeLocationInformation")
                 = true) by (vm_compute; reflexivity).
  pose proof (formatter_selection_and_text_layout sample_host sample_console
                sample_world (logOptions sample_world) sample_event WARN
                yellow_call Hr)
    as (_ & _ & Hjson & _ & Htext & _).
  split; [exact Hr|]. split; [exact Hj|]. split; [exact (Hjson Hj)|].
  split; [exact Hloc|]. exact (Htext Hloc).
Defined.

(** An error reaching the handler of the loaded module. *)
Lemma uncaughtException_logs_then_signals_witness :
  immediates sample_world = []
  /\ enrich_callable (logOptions sample_world) = true
  /\ exists w1 w2,
       uncaughtException (VStr "Error: boom") 5 (Frames [sample_site]) sample_world
       = (inl tt, w1)
       /\ run sample_host 2 w1 = Quiescent w2
       /\ exists line,
            effects w2 = [Write line; Kill 4711 "SIGINT"]
            /\ starts_with "{" line = true.
Proof.
  assert (Hq : immediates sample_world = []) by reflexivity.
  assert (He : enrich_callable (logOptions sample_world) = true)
    by (vm_compute; reflexivity).
  split; [exact Hq|]. split; [exact He|].
  destruct (uncaughtException_logs_then_signals sample_host sample_world
              "Error: boom" 5 sample_site [] Hq He)
    as (w1 & w2 & Hcall & _ & _ & _ & Hrun & Heff).
  exists w1, w2. split; [exact Hcall|]. split; [exact Hrun|].
  eexists. split; [exact Heff|]. vm_compute; reflexivity.
Defined.

(** * Further properties *)

(** ** [extend] with any number of sources *)

Lemma foldl_mix_in_lookup {V} (sources : list (gmap string V)) : forall target k,
  foldl mix_in target sources !! k
  = match target !! k with
    | Some v => Some v
    | None => first_hit k sources
    end.
Proof.
  induction sources as [|source sources IH]; intros target k; simpl.
  - by destruct (target !! k).
  - rewrite IH, mix_in_union, lookup_union.
    destruct (target !! k) as [v|], (source !! k) as [v'|]; simpl; done.
Qed.

(** X1. [extend] never overwrites: a property of the result is the one of
    the first object, in argument order, that has it (and is missing when
    no object has it); with no source the result is a copy of the first
    object. *)
Theorem extend_first_object_wins {V} (firstObject : gmap string V)
    (sources : list (gmap string V)) (k : string) :
  extend firstObject sources !! k = first_hit k (firstObject :: sources)
  /\ extend firstObject [] = firstObject.
Proof.
  split; [|unfold extend; simpl; apply copy_own_empty].
  unfold extend. by rewrite foldl_mix_in_lookup, copy_own_empty.
Qed.

(** ** The console interceptor as a two-state machine *)

Lemma enabled_restored d c : enabled (restored d c) = enabled c.
Proof.
  apply map_eq; intros k. unfold enabled, restored.
  rewrite !lookup_insert. by repeat case_decide.
Qed.

Lemma restored_enabled d c : restored d (enabled c) = restored d c.
Proof.
  apply map_eq; intros k. unfold enabled, restored.
  rewrite !lookup_insert. by repeat case_decide.
Qed.

Lemma restored_idem d c : restored d (restored d c) = restored d c.
Proof.
  apply map_eq; intros k. unfold restored.
  rewrite !lookup_insert. by repeat case_decide.
Qed.

Lemma console_setOptions options w :
  console (setOptions options w)
  = console (redirectConsole
               (truthy_opt (prop (options ∪ defaultLogOptions) "redirectConsole")) w).
Proof. by rewrite setOptions_unfold. Qed.

(** In a reachable state the console is redirected or native, nothing
    else. *)
Lemma reachable_console H hostConsole w :
  reachable H hostConsole w ->
  console w = enabled (host_bindings hostConsole)
  \/ console w = restored (saved_console hostConsole) (host_bindings hostConsole).
Proof.
  assert (Hstep : forall enable w,
            defaultConsole w = saved_console hostConsole ->
            console w = enabled (host_bindings hostConsole)
            \/ console w = restored (saved_console hostConsole)
                             (host_bindings hostConsole) ->
            console (redirectConsole enable w) = enabled (host_bindings hostConsole)
            \/ console (redirectConsole enable w)
               = restored (saved_console hostConsole) (host_bindings hostConsole)).
  { intros enable w0 Hd Hc. destruct enable.
    - rewrite redirect_enable. case_decide; [|done]. simpl. left.
      destruct Hc as [-> | ->]; [apply enabled_idem|apply enabled_restored].
    - rewrite redirect_disable. case_decide; [|done]. simpl. right.
      rewrite Hd. destruct Hc as [-> | ->];
        [apply restored_enabled|apply restored_idem]. }
  induction 1 as [cfg|options w Hr IH|enable w Hr IH|lvl c w Hr IH
                  |t q w Hr IH Hq|stack date h w Hr IH].
  - rewrite load_unfold. by left.
  - rewrite console_setOptions. apply Hstep; [|done].
    by apply (reachable_defaultConsole H).
  - apply Hstep; [|done]. by apply (reachable_defaultConsole H).
  - destruct (module_state_eq _ _ (module_state_log lvl c w)) as (_ & _ & _ & Hc).
    by rewrite Hc.
  - destruct (module_state_eq _ _ (module_state_run_task H t q w))
      as (_ & _ & _ & Hc).
    by rewrite Hc.
  - destruct (module_state_eq _ _ (module_state_uncaught stack date h w))
      as (_ & _ & _ & Hc).
    by rewrite Hc.
Qed.

Lemma reachable_redirect_console H hostConsole w enable :
  reachable H hostConsole w ->
  console (redirectConsole enable w)
  = if enable then enabled (host_bindings hostConsole)
    else restored (saved_console hostConsole) (host_bindings hostConsole).
Proof.
  intros Hr.
  pose proof (reachable_defaultConsole H hostConsole w Hr) as Hd.
  pose proof (reachable_console H hostConsole w Hr) as Hc.
  destruct enable.
  - rewrite redirect_enable. case_decide as Hg; simpl.
    + destruct Hc as [-> | ->]; [apply enabled_idem|apply enabled_restored].
    + destruct Hc as [Hc|Hc]; [done|]. exfalso. apply Hg.
      by rewrite Hc, restored_log, Hd.
  - rewrite redirect_disable. case_decide as Hg; simpl.
    + rewrite Hd. destruct Hc as [-> | ->];
        [apply restored_enabled|apply restored_idem].
    + destruct Hc as [Hc|Hc]; [|done]. exfalso.
      rewrite Hc, enabled_log, Hd, saved_console_log in Hg.
      symmetry in Hg. by apply host_binding_not_karl in Hg.
Qed.

(** X2. The console has two states.  In every state reachable from load
    the bindings are the redirected ones or the native ones, and after
    [setOptions] they are decided by the new [redirectConsole] option
    alone, whatever toggles came before. *)
Theorem setOptions_decides_console (H : Host) (hostConsole : gmap string string)
    (w : World) (options : gmap string OptVal) :
  reachable H hostConsole w ->
  (console w = enabled (host_bindings hostConsole)
   \/ console w = restored (saved_console hostConsole) (host_bindings hostConsole))
  /\ console (setOptions options w)
     = if truthy_opt (prop (options ∪ defaultLogOptions) "redirectConsole")
       then enabled (host_bindings hostConsole)
       else restored (saved_console hostConsole) (host_bindings hostConsole).
Proof.
  intros Hr. split; [by apply (reachable_console H)|].
  rewrite console_setOptions. by apply (reachable_redirect_console H).
Qed.

(** Two reconfigurations on the freshly loaded module. *)
Lemma setOptions_decides_console_witness :
  reachable sample_host sample_console sample_world
  /\ console (setOptions text_options sample_world)
     = restored (saved_console sample_console) (host_bindings sample_console)
  /\ console (setOptions ∅ native_world)
     = enabled (host_bindings sample_console).
Proof.
  assert (Hr : reachable sample_host sample_console sample_world)
    by apply reach_load.
  assert (Hn : reachable sample_host sample_console native_world)
    by (apply reach_setOptions, reach_load).
  split; [exact Hr|]. split.
  - exact (proj2 (setOptions_decides_console sample_host sample_console
                    sample_world text_options Hr)).
  - exact (proj2 (setOptions_decides_console sample_host sample_console
                    native_world ∅ Hn)).
Defined.

Lemma restored_saved_other hostConsole name :
  name <> "debug" ->
  cprop (restored (saved_console hostConsole) (host_bindings hostConsole)) name
  = cprop (host_bindings hostConsole) name.
Proof.
  intros Hne. unfold restored, saved_console, host_bindings, cprop at 1.
  rewrite !lookup_insert.
  repeat case_decide; subst; try done;
    unfold cprop at 1; rewrite !lookup_insert; by repeat case_decide.
Qed.

(** X3. Disabling the interception gives the host its console back except
    for [debug]: after a disable in any reachable state every entry point
    other than [console.debug] is bound to what the host had under that
    name at load. *)
Theorem disable_restores_all_but_debug (H : Host)
    (hostConsole : gmap string string) (w : World) (name : string) :
  reachable H hostConsole w ->
  name <> "debug" ->
  cprop (console (redirectConsole false w)) name
  = cprop (host_bindings hostConsole) name.
Proof.
  intros Hr Hne. rewrite (reachable_redirect_console H hostConsole) by done.
  by apply restored_saved_other.
Qed.

(** [console.warn] after a disable on the loaded module. *)
Lemma disable_restores_all_but_debug_witness :
  reachable sample_host sample_console sample_world
  /\ "warn" <> "debug"
  /\ cprop (console (redirectConsole false sample_world)) "warn" = FHost "warn".
Proof.
  assert (Hr : reachable sample_host sample_console sample_world)
    by apply reach_load.
  assert (Hne : "warn" <> "debug") by discriminate.
  split; [exact Hr|]. split; [exact Hne|].
  exact (disable_restores_all_but_debug sample_host sample_console sample_world
           "warn" Hr Hne).
Defined.

(** X4. The interceptor only ever touches its six entry points: in every
    reachable state any other property of [console] is the host's. *)
Theorem other_console_entries_untouched (H : Host)
    (hostConsole : gmap string string) (w : World) (name : string) :
  reachable H hostConsole w ->
  name ∉ console_names ->
  console w !! name = host_bindings hostConsole !! name.
Proof.
  intros Hr Hout.
  assert (Hne : name <> "trace" /\ name <> "debug" /\ name <> "log"
                /\ name <> "info" /\ name <> "warn" /\ name <> "error").
  { unfold console_names in Hout. rewrite !not_elem_of_cons in Hout. tauto. }
  destruct Hne as (? & ? & ? & ? & ? & ?).
  destruct (reachable_console H hostConsole w Hr) as [-> | ->];
    unfold enabled, restored; by rewrite !lookup_insert_ne.
Qed.

(** [console.dir] while the console is redirected. *)
Lemma other_console_entries_untouched_witness :
  reachable sample_host sample_console sample_world
  /\ ("dir" ∉ console_names)
  /\ console sample_world !! "dir" = host_bindings sample_console !! "dir".
Proof.
  assert (Hr : reachable sample_host sample_console sample_world)
    by apply reach_load.
  assert (Hout : "dir" ∉ console_names).
  { unfold console_names. rewrite !not_elem_of_cons.
    repeat split; try discriminate. apply not_elem_of_nil. }
  split; [exact Hr|]. split; [exact Hout|].
  exact (other_console_entries_untouched sample_host sample_console sample_world
           "dir" Hr Hout).
Defined.

(** X5. After an enable in any reachable state [console.log] is
    [karl.info] and [console.trace], [.debug], [.info], [.warn] and
    [.error] are the [karl] methods of the same name. *)
Theorem enable_binds_console_to_karl (H : Host)
    (hostConsole : gmap string string) (w : World) :
  reachable H hostConsole w ->
  cprop (console (redirectConsole true w)) "log" = FKarl INFO
  /\ Forall
       (fun l =>
          cprop (console (redirectConsole true w)) (toLowerCase (level_name l))
          = FKarl l)
       [TRACE; DEBUG; INFO; WARN; ERROR].
Proof.
  intros Hr. rewrite (reachable_redirect_console H hostConsole) by done.
  split; [apply enabled_log|].
  repeat constructor; unfold cprop, enabled; simpl;
    rewrite !lookup_insert; by repeat case_decide.
Qed.

(** Re-enabling after [setOptions({ redirectConsole: false })]. *)
Lemma enable_binds_console_to_karl_witness :
  reachable sample_host sample_console native_world
  /\ cprop (console (redirectConsole true native_world)) "log" = FKarl INFO.
Proof.
  assert (Hn : reachable sample_host sample_console native_world)
    by (apply reach_setOptions, reach_load).
  split; [exact Hn|].
  exact (proj1 (enable_binds_console_to_karl sample_host sample_console
                  native_world Hn)).
Defined.

Lemma module_state_setOptions H hostConsole options w :
  reachable H hostConsole w ->
  module_state (setOptions options w)
  = (options ∪ defaultLogOptions,
     Some (getFormatter (options ∪ defaultLogOptions)),
     saved_console hostConsole,
     if truthy_opt (prop (options ∪ defaultLogOptions) "redirectConsole")
     then enabled (host_bindings hostConsole)
     else restored (saved_console hostConsole) (host_bindings hostConsole)).
Proof.
  intros Hr. unfold module_state.
  rewrite console_setOptions, (reachable_redirect_console H hostConsole) by done.
  rewrite defaultConsole_setOptions, (reachable_defaultConsole H hostConsole) by done.
  by rewrite setOptions_unfold.
Qed.

(** X6. The last reconfiguration wins: after [setOptions(second)] the
    options, the formatter and the console bindings are the same whether
    or not another [setOptions] came before it; in particular repeating a
    reconfiguration changes nothing. *)
Theorem setOptions_last_wins (H : Host) (hostConsole : gmap string string)
    (w : World) (first second : gmap string OptVal) :
  reachable H hostConsole w ->
  module_state (setOptions second (setOptions first w))
  = module_state (setOptions second w)
  /\ module_state (setOptions second (setOptions second w))
     = module_state (setOptions second w).
Proof.
  intros Hr.
  assert (Hfirst : forall o, reachable H hostConsole (setOptions o w))
    by (intros o; by apply reach_setOptions).
  by rewrite !(module_state_setOptions H hostConsole).
Qed.

(** Switching to text output after the console was restored. *)
Lemma setOptions_last_wins_witness :
  reachable sample_host sample_console sample_world
  /\ module_state (setOptions text_options
                     (setOptions {["redirectConsole" := OVal (VBool false)]}
                        sample_world))
     = module_state (setOptions text_options sample_world).
Proof.
  assert (Hr : reachable sample_host sample_console sample_world)
    by apply reach_load.
  split; [exact Hr|].
  exact (proj1 (setOptions_last_wins sample_host sample_console sample_world
                  {["redirectConsole" := OVal (VBool false)]} text_options Hr)).
Defined.

(** ** Reconfiguring between a call and its deferred part *)

Lemma setOptions_keeps_queue options w :
  immediates (setOptions options w) = immediates w
  /\ effects (setOptions options w) = effects w
  /\ errorConfig (setOptions options w) = errorConfig w.
Proof.
  rewrite setOptions_unfold. simpl.
  unfold redirectConsole. by repeat case_match.
Qed.

(** X7. A log method captures its call site and its formatter when it is
    called, while [enrich], [colorize] and the location switch of
    [textFormatter] are read when the deferred part runs: if [setOptions]
    comes between the call and the deferred part, the line is rendered by
    the formatter and with the call site of the old options, enriched and
    coloured under the new ones. *)
Theorem reconfiguration_before_deferred_part (H : Host) (w : World)
    (lvl : Level) (c : SiteCall) (options : gmap string OptVal) (fuel : nat) :
  immediates w = [] ->
  enrich_callable (options ∪ defaultLogOptions) = true ->
  (1 <= fuel)%nat ->
  exists w',
    run H fuel (setOptions options (snd (_log lvl (from_site c) w))) = Quiescent w'
    /\ stdout w'
       = (stdout w ++
          [log_line H (options ∪ defaultLogOptions) lvl
             (kept_site (logOptions w) c) (site_now c)
             (captured_formatter w) (site_args c)])%list.
Proof.
  intros Hq He Hfuel. rewrite _log_from_site, Hq. simpl.
  set (task := LogTask lvl (Val (kept_site (logOptions w) c)) (site_now c)
                 (captured_formatter w) (site_args c)).
  set (w1 := with_immediates [task] w).
  destruct (setOptions_keeps_queue options w1) as (Hq2 & He2 & _).
  pose proof (logOptions_setOptions options w1) as Ho2.
  destruct fuel as [|fuel]; [lia|].
  eexists. split.
  - rewrite (run_cons H fuel _ task []) by (rewrite Hq2; done).
    unfold task at 1.
    rewrite run_task_log
      by (cbn [logOptions with_immediates]; by rewrite Ho2).
    rewrite run_nil by done. reflexivity.
  - unfold stdout. cbn [effects logOptions with_immediates with_effects].
    rewrite He2, Ho2. cbn [effects with_immediates]. by rewrite omap_app.
Qed.

(** A JSON-configured call followed by a switch to text and colour: the
    line is still JSON, and coloured. *)
Lemma reconfiguration_before_deferred_part_witness :
  immediates sample_world = []
  /\ enrich_callable
       (<["colorize" := OVal (VBool true)]> text_options ∪ defaultLogOptions) = true
  /\ exists w',
       run sample_host 1
         (setOptions (<["colorize" := OVal (VBool true)]> text_options)
            (snd (_log WARN (from_site yellow_call) sample_world)))
       = Quiescent w'
       /\ stdout w'
          = [String ESC "[33m"
             +:+ (jsonFormatter sample_event +:+ newline)
             +:+ String ESC "[39m"].
Proof.
  assert (Hq : immediates sample_world = []) by reflexivity.
  assert (He : enrich_callable
                 (<["colorize" := OVal (VBool true)]> text_options
                  ∪ defaultLogOptions) = true) by (vm_compute; reflexivity).
  split; [exact Hq|]. split; [exact He|].
  destruct (reconfiguration_before_deferred_part sample_host sample_world WARN
              yellow_call (<["colorize" := OVal (VBool true)]> text_options) 1
              Hq He (le_n 1)) as (w' & Hrun & Hout).
  exists w'. split; [exact Hrun|].
  rewrite Hout. vm_compute. reflexivity.
Defined.

(** ** What a deferred part writes, level by level *)

(** X8. The colour of a line depends on the level alone: with [colorize]
    on, TRACE is wrapped in green (32/39), WARN in yellow (33/39), ERROR
    and FATAL in red (31/39) and DEBUG, like INFO, is not wrapped; with
    [colorize] off no level is wrapped.  The wrapped text is always the
    formatted line with its newline. *)
Theorem line_colour_by_level (H : Host) (w : World) (lvl : Level)
    (caller : CallSite) (date : Z) (format : Formatter) (parameters : list Value) :
  enrich_callable (logOptions w) = true ->
  let line :=
    call_formatter H format (logOptions w)
      (enriched (logOptions w) (build_message H lvl caller date parameters))
    +:+ newline in
  run_task H (LogTask lvl (Val caller) date format parameters) w =
  (inl tt,
   with_effects
     (effects w ++
      [Write
         (if truthy_opt (prop (logOptions w) "colorize") then
            match lvl with
            | TRACE => String ESC "[32m" +:+ line +:+ String ESC "[39m"
            | DEBUG | INFO => line
            | WARN => String ESC "[33m" +:+ line +:+ String ESC "[39m"
            | ERROR | FATAL => String ESC "[31m" +:+ line +:+ String ESC "[39m"
            end
          else line)]) w).
Proof.
  intros He line. rewrite run_task_log by done.
  unfold log_line, colored. fold line.
  destruct (truthy_opt _); [|done]. by destruct lvl.
Qed.

(** An ERROR line with [colorize] on. *)
Lemma line_colour_by_level_witness :
  enrich_callable (logOptions colorized_world) = true
  /\ writes (effects (snd (run_task sample_host
                             (LogTask ERROR (Val sample_site) 0 JsonFormatter
                                [VStr "Should be in yellow."]) colorized_world)))
     = [String ESC "[31m"
        +:+ (jsonFormatter
               (build_message sample_host ERROR sample_site 0
                  [VStr "Should be in yellow."]) +:+ newline)
        +:+ String ESC "[39m"].
Proof.
  assert (He : enrich_callable (logOptions colorized_world) = true)
    by (vm_compute; reflexivity).
  split; [exact He|].
  rewrite (line_colour_by_level sample_host colorized_world ERROR sample_site 0
             JsonFormatter [VStr "Should be in yellow."] He).
  vm_compute. reflexivity.
Defined.

(** X9. A truthy [enrich] option that is not a function breaks every log
    line: the log call still returns and queues its task, but the
    deferred part throws a TypeError when it calls [enrich], and nothing
    is written. *)
Theorem enrich_not_a_function_loses_the_line (H : Host) (w : World)
    (lvl : Level) (c : SiteCall) (v : Value) (fuel : nat) :
  immediates w = [] ->
  prop (logOptions w) "enrich" = OVal v ->
  truthy v = true ->
  (1 <= fuel)%nat ->
  exists w1 w2,
    _log lvl (from_site c) w = (inl tt, w1)
    /\ run H fuel w1
       = Uncaught (TypeError "logOptions.enrich is not a function") w2
    /\ effects w2 = effects w
    /\ immediates w2 = [].
Proof.
  intros Hq Hv Ht Hfuel. rewrite _log_from_site, Hq. simpl.
  eexists _, _. split; [reflexivity|].
  destruct fuel as [|fuel]; [lia|].
  rewrite (run_cons H fuel _ _ []) by done.
  unfold run_task, bind, gets. simpl. rewrite Hv, Ht. simpl.
  repeat split; reflexivity.
Qed.

(** [setOptions({ enrich: true })]. *)
Lemma enrich_not_a_function_loses_the_line_witness :
  immediates broken_enrich_world = []
  /\ prop (logOptions broken_enrich_world) "enrich" = OVal (VBool true)
  /\ exists w1 w2,
       _log INFO (from_site queue_call) broken_enrich_world = (inl tt, w1)
       /\ run sample_host 1 w1
          = Uncaught (TypeError "logOptions.enrich is not a function") w2
       /\ effects w2 = effects broken_enrich_world
       /\ immediates w2 = [].
Proof.
  assert (Hq : immediates broken_enrich_world = []) by (vm_compute; reflexivity).
  assert (Hv : prop (logOptions broken_enrich_world) "enrich" = OVal (VBool true))
    by (vm_compute; reflexivity).
  split; [exact Hq|]. split; [exact Hv|].
  exact (enrich_not_a_function_loses_the_line sample_host broken_enrich_world
           INFO queue_call (VBool true) 1 Hq Hv eq_refl (le_n 1)).
Defined.

(** ** A stack capture that throws *)

Lemma log_calls_errorConfig calls w :
  errorConfig (snd (log_calls (map issue calls) w)) = errorConfig w.
Proof. by rewrite log_calls_from_sites. Qed.

(** X10. When the stack capture throws, the log method lets the exception
    through to its caller: no task is queued and nothing will be written
    for the call, and [Error.stackTraceLimit] stays at 1.  Later log
    calls do not bring the old limit back, since each saves and restores
    the value it finds.  Thrown inside the [uncaughtException] handler,
    the exception leaves the handler before the signal is scheduled. *)
Theorem throwing_capture_propagates (w : World) (lvl : Level) (c : Call)
    (e : Error) (later : list (Level * SiteCall)) (stack : Value) :
  truthy_opt (prop (logOptions w) "includeLocationInformation") = true ->
  capture c = CaptureThrows e \/ (exists fs, capture c = StackThrows fs e) ->
  fst (_log lvl c w) = inr e
  /\ immediates (snd (_log lvl c w)) = immediates w
  /\ effects (snd (_log lvl c w)) = effects w
  /\ stackTraceLimit (errorConfig (snd (_log lvl c w))) = VNum 1
  /\ stackTraceLimit
       (errorConfig (snd (log_calls (map issue later) (snd (_log lvl c w)))))
     = VNum 1
  /\ fst (uncaughtException stack (now c) (capture c) w) = inr e
  /\ immediates (snd (uncaughtException stack (now c) (capture c) w))
     = immediates w.
Proof.
  intros Hloc Hc.
  assert (Hlog : forall l a,
            _log l {| args := a; now := now c; capture := capture c |} w
            = (inr e, with_errorConfig
                        (snd (getStackInfo (capture c) (errorConfig w))) w)
              /\ stackTraceLimit (snd (getStackInfo (capture c) (errorConfig w)))
                 = VNum 1).
  { intros l a. rewrite _log_unfold, Hloc, getStackInfo_unfold. simpl.
    destruct Hc as [-> | [fs ->]]; done. }
  destruct (Hlog lvl (args c)) as [Hrun Hlimit].
  replace {| args := args c; now := now c; capture := capture c |} with c in Hrun
    by (by destruct c).
  rewrite log_calls_errorConfig, Hrun. simpl.
  repeat split; try done.
  - unfold uncaughtException, bind. by rewrite (proj1 (Hlog FATAL _)).
  - unfold uncaughtException, bind. by rewrite (proj1 (Hlog FATAL _)).
Qed.

(** A log call at the bottom of an exhausted stack, followed by an
    ordinary one. *)
Lemma throwing_capture_propagates_witness :
  truthy_opt (prop (logOptions sample_world) "includeLocationInformation") = true
  /\ fst (_log INFO throwing_call sample_world)
     = inr (HostError "Maximum call stack size exceeded")
  /\ immediates (snd (_log INFO throwing_call sample_world)) = []
  /\ stackTraceLimit
       (errorConfig
          (snd (log_calls (map issue [(INFO, queue_call)])
                  (snd (_log INFO throwing_call sample_world)))))
     = VNum 1.
Proof.
  assert (Hloc : truthy_opt
                   (prop (logOptions sample_world) "includeLocationInformation")
                 = true) by (vm_compute; reflexivity).
  split; [exact Hloc|].
  destruct (throwing_capture_propagates sample_world INFO throwing_call
              (HostError "Maximum call stack size exceeded")
              [(INFO, queue_call)] VNull Hloc (or_introl eq_refl))
    as (Hthrow & Hq & _ & _ & Hlater & _).
  split; [exact Hthrow|]. split; [exact Hq|]. exact Hlater.
Defined.

(** ** A log call with no frame, followed through *)

Lemma uncaught_from_site_run H w stack date frame outer :
  immediates w = [] ->
  enrich_callable (logOptions w) = true ->
  uncaughtException (VStr stack) date (Frames (frame :: outer)) w
  = (inl tt,
     with_immediates
       [LogTask FATAL
          (Val (if truthy_opt (prop (logOptions w) "includeLocationInformation")
                then frame else dummyTrace))
          date (captured_formatter w) [VStr "UncaughtException: "; VStr stack];
        KillTask] w)
  /\ run H 2
       (with_immediates
          [LogTask FATAL
             (Val (if truthy_opt (prop (logOptions w) "includeLocationInformation")
                   then frame else dummyTrace))
             date (captured_formatter w) [VStr "UncaughtException: "; VStr stack];
           KillTask] w)
     = Quiescent
         (with_immediates []
            (with_effects
               (effects w ++
                [Write
                   (log_line H (logOptions w) FATAL
                      (if truthy_opt (prop (logOptions w) "includeLocationInformation")
                       then frame else dummyTrace)
                      date (captured_formatter w)
                      [VStr "UncaughtException: "; VStr stack]);
                 Kill (pid H) "SIGINT"]) w)).
Proof.
  intros Hq He.
  pose proof (_log_from_site FATAL
                {| site_args := [VStr "UncaughtException: "; VStr stack];
                   site_now := date; site_frame := frame; site_outer := outer |} w)
    as Hlog.
  unfold from_site, kept_site in Hlog. simpl in Hlog. rewrite Hq in Hlog.
  simpl in Hlog.
  split.
  { unfold uncaughtException, bind. rewrite Hlog. reflexivity. }
  rewrite (run_cons H 1 _ _ [KillTask]) by done.
  rewrite run_task_log by done.
  rewrite (run_cons H 0 _ KillTask []) by done.
  unfold run_task, emit, modify. rewrite run_nil by done.
  unfold with_immediates, with_effects. simpl. by rewrite <- app_assoc.
Qed.

(** X11. What becomes of a log call that has no JavaScript frame above it
    (location capture on): the call returns, its deferred part throws, and
    once the [uncaughtException] handler has been notified of that error
    the only things that happen are the write of the handler's FATAL line
    and SIGINT raised against the process; the message of the call itself
    is never written. *)
Theorem frameless_call_ends_in_sigint (H : Host) (w : World) (lvl : Level)
    (arguments : list Value) (date handled : Z) (stack : string)
    (frame : CallSite) (outer : list CallSite) :
  immediates w = [] ->
  truthy_opt (prop (logOptions w) "includeLocationInformation") = true ->
  enrich_callable (logOptions w) = true ->
  exists w1 w2 w3 w4 msg,
    _log lvl {| args := arguments; now := date; capture := Frames [] |} w
    = (inl tt, w1)
    /\ run H 1 w1 = Uncaught (TypeError msg) w2
    /\ effects w2 = effects w
    /\ uncaughtException (VStr stack) handled (Frames (frame :: outer)) w2
       = (inl tt, w3)
    /\ run H 2 w3 = Quiescent w4
    /\ effects w4 =
       (effects w ++
        [Write (log_line H (logOptions w) FATAL frame handled
                  (captured_formatter w) [VStr "UncaughtException: "; VStr stack]);
         Kill (pid H) "SIGINT"])%list.
Proof.
  intros Hq Hloc He.
  set (w2 := with_immediates [] w).
  assert (Hq2 : immediates w2 = []) by done.
  assert (He2 : enrich_callable (logOptions w2) = true) by done.
  destruct (uncaught_from_site_run H w2 stack handled frame outer Hq2 He2)
    as [Hcall Hrun].
  cbn [logOptions with_immediates w2] in Hcall, Hrun.
  rewrite Hloc in Hcall, Hrun.
  eexists _, w2, _, _, _. split.
  { rewrite _log_unfold, Hloc, getStackInfo_unfold, Hq. simpl. reflexivity. }
  split.
  { rewrite (run_cons H 0 _ _ []) by done. unfold run_task, bind. simpl.
    destruct w; reflexivity. }
  split; [done|]. split; [exact Hcall|]. split; [exact Hrun|]. done.
Qed.

(** The frameless call on the loaded module, then the handler. *)
Lemma frameless_call_ends_in_sigint_witness :
  immediates sample_world = []
  /\ truthy_opt (prop (logOptions sample_world) "includeLocationInformation") = true
  /\ enrich_callable (logOptions sample_world) = true
  /\ exists w1 w2 w3 w4 msg,
       _log INFO frameless_call sample_world = (inl tt, w1)
       /\ run sample_host 1 w1 = Uncaught (TypeError msg) w2
       /\ effects w2 = effects sample_world
       /\ uncaughtException (VStr "TypeError") 1 (Frames [handler_site]) w2
          = (inl tt, w3)
       /\ run sample_host 2 w3 = Quiescent w4
       /\ effects w4 =
          (effects sample_world ++
           [Write (log_line sample_host (logOptions sample_world) FATAL
                     handler_site 1 (captured_formatter sample_world)
                     [VStr "UncaughtException: "; VStr "TypeError"]);
            Kill (pid sample_host) "SIGINT"])%list.
Proof.
  assert (Hq : immediates sample_world = []) by reflexivity.
  assert (Hloc : truthy_opt
                   (prop (logOptions sample_world) "includeLocationInformation")
                 = true) by (vm_compute; reflexivity).
  assert (He : enrich_callable (logOptions sample_world) = true)
    by (vm_compute; reflexivity).
  split; [exact Hq|]. split; [exact Hloc|]. split; [exact He|].
  exact (frameless_call_ends_in_sigint sample_host sample_world INFO
           [VStr "hello"] 0 1 "TypeError" handler_site [] Hq Hloc He).
Defined.

(** ** Output is append-only *)

Lemma run_task_effects H t w :
  immediates (snd (run_task H t w)) = immediates w
  /\ exists es,
       effects (snd (run_task H t w)) = (effects w ++ es)%list
       /\ (length es <= 1)%nat.
Proof.
  destruct t as [lvl trace date format parameters|].
  - destruct trace as [| |caller].
    + split; [done|]. exists []. rewrite app_nil_r. simpl. split; [done|lia].
    + split; [done|]. exists []. rewrite app_nil_r. simpl. split; [done|lia].
    + destruct (enrich_callable (logOptions w)) eqn:He.
      * rewrite run_task_log by done. simpl. split; [done|].
        eexists. split; [reflexivity|simpl; lia].
      * unfold enrich_callable in He. unfold run_task, bind, gets. simpl.
        destruct (prop (logOptions w) "enrich") as [v|f]; [|done].
        apply negb_false_iff in He. rewrite He. simpl.
        split; [done|]. exists []. rewrite app_nil_r. split; [done|simpl; lia].
  - simpl. split; [done|]. eexists. split; [reflexivity|simpl; lia].
Qed.

(** X12. Whatever tasks are queued and whether they complete or throw,
    running the scheduler only appends to what was written or signalled
    before, and adds at most one effect per queued task. *)
Theorem run_only_appends (H : Host) (fuel : nat) (w : World) :
  exists more,
    effects (outcome_world (run H fuel w)) = (effects w ++ more)%list
    /\ (length more <= length (immediates w))%nat.
Proof.
  revert w. induction fuel as [|fuel IH]; intros w.
  - exists []. rewrite app_nil_r. simpl. split; [by destruct (immediates w)|lia].
  - destruct (immediates w) as [|t q] eqn:Hq.
    + rewrite run_nil by done. exists []. by rewrite app_nil_r.
    + rewrite (run_cons H fuel w t q Hq).
      destruct (run_task_effects H t (with_immediates q w))
        as (Hq' & es & Hes & Hlen).
      destruct (run_task H t (with_immediates q w)) as [[[]|e] w'] eqn:Hrun;
        simpl in *.
      * destruct (IH w') as (more & Hmore & Hlen').
        exists (es ++ more)%list. rewrite Hmore, Hes, app_assoc.
        split; [done|]. rewrite length_app, Hq' in *. lia.
      * exists es. split; [done|]. lia.
Qed.

(** ** One record per line *)

(** X13. With [jsonFormatter] and [colorize] off, what a deferred part
    writes is one text without any control character followed by exactly
    one newline, whatever the arguments of the call contain and whatever
    [enrich] adds: a message cannot break the one-record-per-line
    framing. *)
Theorem json_line_is_one_line (H : Host) (w : World) (lvl : Level)
    (caller : CallSite) (date : Z) (parameters : list Value) :
  enrich_callable (logOptions w) = true ->
  truthy_opt (prop (logOptions w) "colorize") = false ->
  let record :=
    jsonFormatter
      (enriched (logOptions w) (build_message H lvl caller date parameters)) in
  run_task H (LogTask lvl (Val caller) date JsonFormatter parameters) w
  = (inl tt, with_effects (effects w ++ [Write (record +:+ newline)]) w)
  /\ no_control record = true
  /\ has_char (ascii_of_nat 10) record = false
  /\ has_char ESC record = false.
Proof.
  intros He Hc record. rewrite run_task_log by done.
  unfold log_line, colored. rewrite Hc. simpl. fold record.
  split; [done|].
  assert (Hn : no_control record = true) by apply no_control_jsonFormatter.
  split; [done|].
  split; apply no_control_no_char; try done; vm_compute; lia.
Qed.

(** A message with a line break in it, on the loaded module. *)
Lemma json_line_is_one_line_witness :
  enrich_callable (logOptions sample_world) = true
  /\ truthy_opt (prop (logOptions sample_world) "colorize") = false
  /\ has_char (ascii_of_nat 10)
       (jsonFormatter
          (enriched (logOptions sample_world)
             (build_message sample_host INFO sample_site 0
                [VStr ("first" +:+ newline +:+ "second")]))) = false.
Proof.
  assert (He : enrich_callable (logOptions sample_world) = true)
    by (vm_compute; reflexivity).
  assert (Hc : truthy_opt (prop (logOptions sample_world) "colorize") = false)
    by (vm_compute; reflexivity).
  split; [exact He|]. split; [exact Hc|].
  destruct (json_line_is_one_line sample_host sample_world INFO sample_site 0
              [VStr ("first" +:+ newline +:+ "second")] He Hc)
    as (_ & _ & Hnl & _).
  exact Hnl.
Defined.

(** ** The earlier revision *)

Lemma legacy_redirect_enable s :
  Legacy.redirectConsole true s =
  if decide (cprop (Legacy.console s) "log" = cprop (Legacy.defaultConsole s) "log")
  then Legacy.with_console (Legacy.enabled (Legacy.console s)) s else s.
Proof. reflexivity. Qed.

Lemma legacy_redirect_disable s :
  Legacy.redirectConsole false s =
  if decide (cprop (Legacy.console s) "log" <> cprop (Legacy.defaultConsole s) "log")
  then Legacy.with_console
         (Legacy.restored (Legacy.defaultConsole s) (Legacy.console s)) s
  else s.
Proof. reflexivity. Qed.

Lemma legacy_redirect_keeps enable s :
  Legacy.logOptions (Legacy.redirectConsole enable s) = Legacy.logOptions s
  /\ Legacy.defaultConsole (Legacy.redirectConsole enable s)
     = Legacy.defaultConsole s.
Proof. unfold Legacy.redirectConsole. by repeat case_match. Qed.

Lemma legacy_logOptions_setOptions options s :
  Legacy.logOptions (Legacy.setOptions options s)
  = options ∪ Legacy.defaultLogOptions.
Proof.
  unfold Legacy.setOptions. cbn [Legacy.logOptions].
  rewrite (proj1 (legacy_redirect_keeps _ _)). cbn [Legacy.logOptions].
  apply extend_defaults.
Qed.

(** X14. In the earlier revision the formatter after [setOptions] is
    decided by [humanReadable] first: unless the object passes a truthy
    [humanReadable] the output stays one-line JSON whatever [json] says;
    with it, text output needs an explicit falsy [json], and an omitted
    [json] gives the pretty-printed form. *)
Theorem legacy_formatter_after_setOptions (options : gmap string OptVal)
    (s : Legacy.State) :
  Legacy.currentFormatter (Legacy.setOptions options s)
  = Some (if negb (Legacy.wants_humanReadable options) then Legacy.JsonFormatter
          else if Legacy.wants_json options then Legacy.JsonPrettyPrintFormatter
          else Legacy.TextFormatter).
Proof.
  pose proof (legacy_logOptions_setOptions options s) as Ho.
  unfold Legacy.setOptions in *. cbn [Legacy.currentFormatter Legacy.logOptions] in *.
  rewrite Ho. f_equal.
  unfold Legacy.getFormatter, Legacy.wants_humanReadable, Legacy.wants_json, prop.
  rewrite !lookup_union.
  by destruct (options !! "humanReadable") as [hr|], (options !! "json") as [js|].
Qed.

Lemma legacy_load_unfold hostConsole :
  Legacy.load hostConsole =
  {| Legacy.logOptions := Legacy.defaultLogOptions;
     Legacy.currentFormatter := None;
     Legacy.defaultConsole := Legacy.saved_console hostConsole;
     Legacy.console := Legacy.enabled (host_bindings hostConsole) |}.
Proof.
  unfold Legacy.load. simpl. rewrite legacy_redirect_enable. simpl.
  fold (Legacy.saved_console hostConsole).
  case_decide as Hg; [done|].
  exfalso. apply Hg. unfold Legacy.saved_console, cprop at 2.
  by rewrite !lookup_insert.
Qed.

Lemma legacy_reachable_defaultConsole hostConsole s :
  Legacy.reachable hostConsole s ->
  Legacy.defaultConsole s = Legacy.saved_console hostConsole.
Proof.
  induction 1 as [|options s _ IH|enable s _ IH].
  - by rewrite legacy_load_unfold.
  - unfold Legacy.setOptions. cbn [Legacy.defaultConsole].
    by rewrite (proj2 (legacy_redirect_keeps _ _)).
  - by rewrite (proj2 (legacy_redirect_keeps _ _)).
Qed.

Lemma legacy_console_maps d c :
  Legacy.enabled (Legacy.enabled c) = Legacy.enabled c
  /\ Legacy.enabled (Legacy.restored d c) = Legacy.enabled c
  /\ Legacy.restored d (Legacy.enabled c) = Legacy.restored d c
  /\ Legacy.restored d (Legacy.restored d c) = Legacy.restored d c.
Proof.
  repeat split; apply map_eq; intros k;
    unfold Legacy.enabled, Legacy.restored;
    rewrite !lookup_insert; by repeat case_decide.
Qed.

Lemma legacy_reachable_console hostConsole s :
  Legacy.reachable hostConsole s ->
  Legacy.console s = Legacy.enabled (host_bindings hostConsole)
  \/ Legacy.console s
     = Legacy.restored (Legacy.saved_console hostConsole) (host_bindings hostConsole).
Proof.
  assert (Hstep : forall enable s,
            Legacy.defaultConsole s = Legacy.saved_console hostConsole ->
            Legacy.console s = Legacy.enabled (host_bindings hostConsole)
            \/ Legacy.console s
               = Legacy.restored (Legacy.saved_console hostConsole)
                   (host_bindings hostConsole) ->
            Legacy.console (Legacy.redirectConsole enable s)
            = Legacy.enabled (host_bindings hostConsole)
            \/ Legacy.console (Legacy.redirectConsole enable s)
               = Legacy.restored (Legacy.saved_console hostConsole)
                   (host_bindings hostConsole)).
  { intros enable s0 Hd Hc.
    destruct (legacy_console_maps (Legacy.saved_console hostConsole)
                (host_bindings hostConsole)) as (E1 & E2 & E3 & E4).
    destruct enable.
    - rewrite legacy_redirect_enable. case_decide; [|done]. simpl. left.
      by destruct Hc as [-> | ->].
    - rewrite legacy_redirect_disable. case_decide; [|done]. simpl. right.
      rewrite Hd. by destruct Hc as [-> | ->]. }
  induction 1 as [|options s Hr IH|enable s Hr IH].
  - rewrite legacy_load_unfold. by left.
  - unfold Legacy.setOptions. cbn [Legacy.console].
    apply Hstep; [|done]. simpl. by apply legacy_reachable_defaultConsole.
  - apply Hstep; [|done]. by apply legacy_reachable_defaultConsole.
Qed.

Lemma legacy_restored_saved hostConsole name :
  cprop (Legacy.restored (Legacy.saved_console hostConsole)
           (host_bindings hostConsole)) name
  = cprop (host_bindings hostConsole) name.
Proof.
  unfold Legacy.restored, Legacy.saved_console, host_bindings, cprop at 1.
  rewrite !lookup_insert.
  repeat case_decide; subst; try done;
    unfold cprop at 1; rewrite !lookup_insert; by repeat case_decide.
Qed.

(** X15. In the earlier revision, which intercepts [log], [info], [warn]
    and [error] only, a disable taken in any reachable state gives back
    every console entry point as the host had it at load. *)
Theorem legacy_disable_restores_console (hostConsole : gmap string string)
    (s : Legacy.State) (name : string) :
  Legacy.reachable hostConsole s ->
  cprop (Legacy.console (Legacy.redirectConsole false s)) name
  = cprop (host_bindings hostConsole) name.
Proof.
  intros Hr.
  pose proof (legacy_reachable_defaultConsole hostConsole s Hr) as Hd.
  destruct (legacy_console_maps (Legacy.saved_console hostConsole)
              (host_bindings hostConsole)) as (_ & _ & E3 & E4).
  rewrite legacy_redirect_disable. case_decide as Hg; simpl.
  - rewrite Hd.
    destruct (legacy_reachable_console hostConsole s Hr) as [-> | ->];
      rewrite ?E3, ?E4; apply legacy_restored_saved.
  - destruct (legacy_reachable_console hostConsole s Hr) as [Hc|Hc].
    + exfalso. rewrite Hc, Hd in Hg.
      unfold Legacy.enabled, Legacy.saved_console, cprop in Hg.
      rewrite !lookup_insert in Hg. simpl in Hg.
      rewrite lookup_fmap in Hg. by destruct (hostConsole !! "log").
    + rewrite Hc. apply legacy_restored_saved.
Qed.

(** [console.debug] and [console.log] after a disable on the loaded
    earlier revision. *)
Lemma legacy_disable_restores_console_witness :
  Legacy.reachable sample_console (Legacy.load sample_console)
  /\ cprop (Legacy.console
              (Legacy.redirectConsole false (Legacy.load sample_console))) "log"
     = FHost "log"
  /\ cprop (Legacy.console
              (Legacy.redirectConsole false (Legacy.load sample_console))) "debug"
     = FHost "debug".
Proof.
  assert (Hr : Legacy.reachable sample_console (Legacy.load sample_console))
    by apply Legacy.reach_load.
  split; [exact Hr|]. split.
  - exact (legacy_disable_restores_console sample_console _ "log" Hr).
  - exact (legacy_disable_restores_console sample_console _ "debug" Hr).
Defined.

(** ** The resolver and the configuration it finds *)

(** X16. The resolver does not depend on the stack-trace configuration it
    finds: whatever [Error.stackTraceLimit] and [Error.prepareStackTrace]
    hold (a limit of 0, a formatter installed by the application), it
    returns the innermost frame above the log method and leaves both as
    they were. *)
Theorem resolver_ignores_prior_configuration (cfg : ErrorConfig)
    (frame : CallSite) (outer : list CallSite) :
  getStackInfo (Frames (frame :: outer)) cfg = (inl (Val frame), cfg).
Proof. by rewrite getStackInfo_unfold. Qed.
